(** * The equation API of [backend/app.py]

    A shallow embedding of the Flask handler [solve_equation] (route
    [/solve]) and of the value types it manipulates, followed by the
    properties of the handler.

    The handler delegates parsing and solving to SymPy.  SymPy is not part
    of the program: it appears here as a record of operations ([Engine])
    over one type of Python objects, and every statement is made for an
    arbitrary engine.  A small scripted engine ([Demo]) instantiates the
    statements on concrete requests. *)

From Stdlib Require Import String Ascii.
From Stdlib Require Import NArith List Bool Arith Lia Permutation.
From Stdlib Require Import Sorting.Sorted.
Import ListNotations.

Local Open Scope list_scope.

(* ================================================================== *)
(** ** Python strings *)

(** A Python [str] is a sequence of Unicode code points. *)
Definition pystr : Type := list N.

(** A literal of the source, character by character. *)
Definition lit (s : string) : pystr :=
  map N_of_ascii (list_ascii_of_string s).

(** [a == b] on strings. *)
Fixpoint pystr_eqb (a b : pystr) : bool :=
  match a, b with
  | [], [] => true
  | x :: a', y :: b' => (x =? y)%N && pystr_eqb a' b'
  | _, _ => false
  end.

(** [str.isspace] on one character: the code points CPython lists as
    whitespace. *)
Definition isspace (c : N) : bool :=
  ((9 <=? c) && (c <=? 13) || (28 <=? c) && (c <=? 32)
   || (c =? 133) || (c =? 160) || (c =? 5760)
   || (8192 <=? c) && (c <=? 8202)
   || (c =? 8232) || (c =? 8233) || (c =? 8239) || (c =? 8287)
   || (c =? 12288))%N.

Fixpoint lstrip (s : pystr) : pystr :=
  match s with
  | [] => []
  | c :: s' => if isspace c then lstrip s' else s
  end.

Definition rstrip (s : pystr) : pystr := rev (lstrip (rev s)).

(** [s.strip()] *)
Definition strip (s : pystr) : pystr := rstrip (lstrip s).

(** [c in s] for a one-character [c]. *)
Definition contains (c : N) (s : pystr) : bool := existsb (N.eqb c) s.

(** [s.count(c)] for a one-character [c]. *)
Fixpoint count (c : N) (s : pystr) : nat :=
  match s with
  | [] => 0
  | d :: s' => (if (d =? c)%N then 1 else 0) + count c s'
  end.

(** [s.split(c)] for a one-character separator: every occurrence cuts,
    empty pieces are kept, and the empty string gives one empty piece. *)
Fixpoint split (c : N) (s : pystr) : list pystr :=
  match s with
  | [] => [[]]
  | d :: s' =>
      if (d =? c)%N then [] :: split c s'
      else match split c s' with
           | p :: ps => (d :: p) :: ps
           | [] => [[d]]
           end
  end.

(** [sep.join(l)] *)
Fixpoint join (sep : pystr) (l : list pystr) : pystr :=
  match l with
  | [] => []
  | [a] => a
  | a :: l' => a ++ sep ++ join sep l'
  end.

(** The order of [str]: lexicographic on code points, a proper prefix
    first. *)
Fixpoint str_le (a b : pystr) : bool :=
  match a, b with
  | [], _ => true
  | _ :: _, [] => false
  | x :: a', y :: b' =>
      if (x <? y)%N then true
      else if (x =? y)%N then str_le a' b'
      else false
  end.

Fixpoint insert_sorted (a : pystr) (l : list pystr) : list pystr :=
  match l with
  | [] => [a]
  | b :: l' => if str_le a b then a :: l else b :: insert_sorted a l'
  end.

(** [sorted(l)] on a list of strings. *)
Definition sorted (l : list pystr) : list pystr :=
  fold_right insert_sorted [] l.

(** [x or ""] for the result of [request.args.get]. *)
Definition or_empty (o : option pystr) : pystr :=
  match o with
  | Some s => s
  | None => []
  end.

Definition EQUALS_SIGN : N := 61.

(* ================================================================== *)
(** ** Responses *)

(** The JSON objects the handler builds: a single key, [result] or
    [error], with a string value. *)
Inductive json : Type :=
| JResult (s : pystr)
| JError (s : pystr).

Record response : Type := Response { status : N; body : json }.

(** [jsonify({"result": s})], status 200 by default. *)
Definition ok_result (s : pystr) : response := Response 200 (JResult s).

(** [jsonify({"error": s}), 400] *)
Definition bad_request (s : pystr) : response := Response 400 (JError s).

Definition MSG_MISSING : pystr := lit "Missing 'equation' query parameter".
Definition MSG_FORMAT : pystr :=
  lit "Invalid equation format. Use single '=' sign.".
Definition MSG_FAILED : pystr := lit "Failed to solve equation: ".
Definition MSG_NO_SOLUTION : pystr := lit "No solution found".

(* ================================================================== *)
(** ** Control flow of a Python block *)

(** What a call into the engine gives: a value, or an exception (an
    instance of [Exception], the class named by the handler's [except]
    clause) with its message [str(e)]. *)
Inductive result (A : Type) : Type :=
| Ok (a : A)
| Exn (msg : pystr).
Arguments Ok {A} a.
Arguments Exn {A} msg.

(** How a block of statements ends: it goes on with a value, it leaves
    the function through [return], or it raises. *)
Inductive outcome (A : Type) : Type :=
| Next (a : A)
| Return (r : response)
| Raise (msg : pystr).
Arguments Next {A} a.
Arguments Return {A} r.
Arguments Raise {A} msg.

Definition bind {A B : Type} (m : outcome A) (k : A -> outcome B) : outcome B :=
  match m with
  | Next a => k a
  | Return r => Return r
  | Raise msg => Raise msg
  end.

Definition call {A : Type} (r : result A) : outcome A :=
  match r with
  | Ok a => Next a
  | Exn msg => Raise msg
  end.

Notation "x <- m ;; k" := (bind m (fun x => k))
  (at level 61, m at next level, right associativity).

(* ================================================================== *)
(** ** The symbolic engine *)

(** The operations of SymPy the handler uses, over the type [Obj] of the
    engine's Python objects.  [parse_expr] stands for the call with the
    handler's fixed [transformations] (the standard ones, implicit
    multiplication and [convert_xor]); [free_symbols] lists the set in
    the order Python iterates it. *)
Record Engine (Obj : Type) : Type := {
  parse_expr : pystr -> result Obj;
  make_Eq : Obj -> Obj -> result Obj;          (* Eq(lhs, rhs) *)
  isinstance_Eq : Obj -> bool;                 (* isinstance(o, Eq) *)
  lhs : Obj -> Obj;                            (* o.lhs *)
  rhs : Obj -> Obj;                            (* o.rhs *)
  free_symbols : Obj -> result (list Obj);     (* o.free_symbols *)
  symbols : pystr -> result Obj;               (* symbols(name) *)
  equals : Obj -> Obj -> result Obj;           (* a.equals(b) *)
  solve : Obj -> Obj -> result (list Obj);     (* solve(expr, var) *)
  str : Obj -> pystr                           (* str(o) *)
}.
Arguments parse_expr {Obj} _ _.
Arguments make_Eq {Obj} _ _ _.
Arguments isinstance_Eq {Obj} _ _.
Arguments lhs {Obj} _ _.
Arguments rhs {Obj} _ _.
Arguments free_symbols {Obj} _ _.
Arguments symbols {Obj} _ _.
Arguments equals {Obj} _ _ _.
Arguments solve {Obj} _ _ _.
Arguments str {Obj} _ _.

(* ================================================================== *)
(** ** The handler *)

(** The query arguments of a request: [request.args.get] gives [None]
    for a key that is absent. *)
Record request : Type := Request {
  arg_equation : option pystr;
  arg_variable : option pystr
}.

(** Lines 29-30: the two arguments, trimmed. *)
Definition equation_arg (req : request) : pystr :=
  strip (or_empty (arg_equation req)).

Definition variable_arg (req : request) : pystr :=
  strip (or_empty (arg_variable req)).

Section Handler.

Context {Obj : Type}.
Variable E : Engine Obj.

(** Lines 43-54: the equation or the bare expression. *)
Definition parse_input (equation : pystr) : outcome Obj :=
  if contains EQUALS_SIGN equation then
    let parts := split EQUALS_SIGN equation in
    if negb (length parts =? 2) then Return (bad_request MSG_FORMAT)
    else
      l <- call (parse_expr E (strip (nth 0 parts []))) ;;
      r <- call (parse_expr E (strip (nth 1 parts []))) ;;
      call (make_Eq E l r)
  else call (parse_expr E equation).

(** Lines 57-60: both branches read the same attribute. *)
Definition get_free_syms (expr : Obj) : result (list Obj) :=
  if isinstance_Eq E expr then free_symbols E expr else free_symbols E expr.

(** Lines 63-80: the variable to solve for, or the evaluation of an
    input without variables. *)
Definition choose_variable (variable : pystr) (expr : Obj)
    (free_syms : list Obj) : outcome Obj :=
  match variable with
  | _ :: _ => call (symbols E variable)
  | [] =>
      match free_syms with
      | [s] => Next s
      | [] =>
          if isinstance_Eq E expr then
            t <- call (equals E (lhs E expr) (rhs E expr)) ;;
            Return (ok_result (str E t))
          else Return (ok_result (str E expr))
      | _ =>
          let sym_names := sorted (map (str E) free_syms) in
          if existsb (pystr_eqb (lit "x")) sym_names
          then call (symbols E (lit "x"))
          else match sym_names with
               | n :: _ => call (symbols E n)
               | [] => Raise (lit "list index out of range")
               end
      end
  end.

(** Lines 85-94: the text of the answer. *)
Definition format_solutions (solve_var : Obj) (solutions : list Obj)
    : response :=
  match solutions with
  | [] => ok_result MSG_NO_SOLUTION
  | [s] => ok_result (str E solve_var ++ lit " = " ++ str E s)
  | _ =>
      ok_result (str E solve_var ++ lit " = "
                 ++ join (lit ", ") (map (str E) solutions))
  end.

(** Lines 36-94: the body of the [try]; every path through it ends in
    a [return] or raises. *)
Definition try_block (equation variable : pystr) : outcome Empty_set :=
  expr <- parse_input equation ;;
  free_syms <- call (get_free_syms expr) ;;
  solve_var <- choose_variable variable expr free_syms ;;
  solutions <- call (solve E expr solve_var) ;;
  Return (format_solutions solve_var solutions).

(** Lines 35 and 96-97: the [try] statement around the block. *)
Definition catch (o : outcome Empty_set) : response :=
  match o with
  | Next v => match v with end
  | Return r => r
  | Raise msg => bad_request (MSG_FAILED ++ msg)
  end.

(** Lines 28-97. *)
Definition solve_equation (req : request) : response :=
  let equation := equation_arg req in
  let variable := variable_arg req in
  match equation with
  | [] => bad_request MSG_MISSING
  | _ :: _ => catch (try_block equation variable)
  end.

End Handler.

(* ================================================================== *)
(** ** Notions used in the statements *)

(** [n] is the first of [names] in the order of [str]. *)
Definition alphabetically_first (n : pystr) (names : list pystr) : Prop :=
  In n names /\ forall m, In m names -> str_le n m = true.

(** The order of [str] as a relation. *)
Definition str_order (a b : pystr) : Prop := str_le a b = true.

(** The texts [t1, t2, ...] written one after the other, a comma and a
    space between two neighbours. *)
Definition comma_separated (texts : list pystr) : pystr :=
  match texts with
  | [] => []
  | t :: rest => t ++ concat (map (fun u => lit ", " ++ u) rest)
  end.



Section Exceptions.

Context {Obj : Type}.
Variable E : Engine Obj.

(** What the handler answers once the solver has been called. *)
Definition after_solve (solve_var : Obj) (r : result (list Obj)) : response :=
  match r with
  | Ok solutions => format_solutions E solve_var solutions
  | Exn msg => bad_request (MSG_FAILED ++ msg)
  end.

(** The calls into the engine that the [try] block makes, each with the
    path that leads to it: [raised_in_try equation variable msg] says
    that the run on [equation] and [variable] reaches one of them and
    that this call raises an exception of message [msg]. *)
Inductive raised_in_try (equation variable msg : pystr) : Prop :=
| raised_parse_expression :
    contains EQUALS_SIGN equation = false ->
    parse_expr E equation = Exn msg ->
    raised_in_try equation variable msg
| raised_parse_lhs (a b : pystr) :
    split EQUALS_SIGN equation = [a; b] ->
    parse_expr E (strip a) = Exn msg ->
    raised_in_try equation variable msg
| raised_parse_rhs (a b : pystr) (l : Obj) :
    split EQUALS_SIGN equation = [a; b] ->
    parse_expr E (strip a) = Ok l ->
    parse_expr E (strip b) = Exn msg ->
    raised_in_try equation variable msg
| raised_make_Eq (a b : pystr) (l r : Obj) :
    split EQUALS_SIGN equation = [a; b] ->
    parse_expr E (strip a) = Ok l ->
    parse_expr E (strip b) = Ok r ->
    make_Eq E l r = Exn msg ->
    raised_in_try equation variable msg
| raised_free_symbols (expr : Obj) :
    parse_input E equation = Next expr ->
    free_symbols E expr = Exn msg ->
    raised_in_try equation variable msg
| raised_symbols (expr : Obj) (free_syms : list Obj) :
    parse_input E equation = Next expr ->
    free_symbols E expr = Ok free_syms ->
    variable <> [] ->
    symbols E variable = Exn msg ->
    raised_in_try equation variable msg
| raised_equals (expr : Obj) :
    parse_input E equation = Next expr ->
    free_symbols E expr = Ok [] ->
    variable = [] ->
    isinstance_Eq E expr = true ->
    equals E (lhs E expr) (rhs E expr) = Exn msg ->
    raised_in_try equation variable msg
| raised_symbols_x (expr : Obj) (free_syms : list Obj) :
    parse_input E equation = Next expr ->
    free_symbols E expr = Ok free_syms ->
    variable = [] ->
    2 <= length free_syms ->
    In (lit "x") (map (str E) free_syms) ->
    symbols E (lit "x") = Exn msg ->
    raised_in_try equation variable msg
| raised_symbols_first (expr : Obj) (free_syms : list Obj) (n : pystr) :
    parse_input E equation = Next expr ->
    free_symbols E expr = Ok free_syms ->
    variable = [] ->
    2 <= length free_syms ->
    ~ In (lit "x") (map (str E) free_syms) ->
    alphabetically_first n (map (str E) free_syms) ->
    symbols E n = Exn msg ->
    raised_in_try equation variable msg
| raised_solve (expr : Obj) (free_syms : list Obj) (solve_var : Obj) :
    parse_input E equation = Next expr ->
    free_symbols E expr = Ok free_syms ->
    choose_variable E variable expr free_syms = Next solve_var ->
    solve E expr solve_var = Exn msg ->
    raised_in_try equation variable msg.

End Exceptions.

(* ================================================================== *)
(** ** The application *)

(** The engine [E] with [p] as its parser. *)
Definition with_parse_expr {Obj : Type} (E : Engine Obj)
    (p : pystr -> result Obj) : Engine Obj := {|
  parse_expr := p;
  make_Eq := make_Eq E;
  isinstance_Eq := isinstance_Eq E;
  lhs := lhs E;
  rhs := rhs E;
  free_symbols := free_symbols E;
  symbols := symbols E;
  equals := equals E;
  solve := solve E;
  str := str E
|}.

(** The headers of a response, as werkzeug's [Headers] keeps them: the
    list of the pairs (name, value), in order. *)
Definition header_list : Type := list (pystr * pystr).

(** The JSON objects of the two views: those of [solve_equation], and
    the [{"message": ...}] of [root]. *)
Inductive document : Type :=
| Answer (j : json)
| Message (s : pystr).

(** A response on its way through the application. *)
Record flask_response : Type := FlaskResponse {
  code : N;
  content : document;
  headers : header_list
}.

Definition ALLOW_ORIGIN : pystr := lit "Access-Control-Allow-Origin".
Definition ALLOW_METHODS : pystr := lit "Access-Control-Allow-Methods".
Definition ALLOW_HEADERS : pystr := lit "Access-Control-Allow-Headers".

(** Lines 99-101. *)
Definition root : N * document :=
  (200%N, Message (lit "Equation API. Try /solve?equation=x^2+2x-10")).

(** The two routes the application registers, with the query arguments
    for [/solve]. *)
Inductive route : Type :=
| GET_solve (req : request)
| GET_root.

Section Application.

(** [Headers] compares names through [same_name] (in werkzeug, the
    equality of the lower-cased names). *)
Variable same_name : pystr -> pystr -> bool.

(** [h.get(name)]: the value of the first pair of that name. *)
Fixpoint get_header (name : pystr) (h : header_list) : option pystr :=
  match h with
  | [] => None
  | (k, v) :: h' => if same_name k name then Some v else get_header name h'
  end.

(** The pairs of [h] whose name is not [name]. *)
Definition without_header (name : pystr) (h : header_list) : header_list :=
  filter (fun kv => negb (same_name (fst kv) name)) h.

(** [h[name] = value]: the new pair takes the place of the first pair of
    that name, the later pairs of that name are removed; without such a
    pair the new one is added at the end. *)
Fixpoint set_header (name value : pystr) (h : header_list) : header_list :=
  match h with
  | [] => [(name, value)]
  | (k, v) :: h' =>
      if same_name k name then (name, value) :: without_header name h'
      else (k, v) :: set_header name value h'
  end.

(** How many pairs of [h] have the name [name]. *)
Definition count_header (name : pystr) (h : header_list) : nat :=
  length (filter (fun kv => same_name (fst kv) name) h).

(** Lines 20-25: the [after_request] hook. *)
Definition add_cors_headers (response : flask_response) : flask_response :=
  let h1 := set_header ALLOW_ORIGIN (lit "*") (headers response) in
  let h2 := set_header ALLOW_METHODS (lit "GET, OPTIONS") h1 in
  let h3 := set_header ALLOW_HEADERS (lit "Content-Type") h2 in
  FlaskResponse (code response) (content response) h3.

Context {Obj : Type}.
Variable E : Engine Obj.

(** The headers Flask gives to the response of a view, before the hooks
    run. *)
Variable framework_headers : N -> document -> header_list.

(** What the view of a route returns. *)
Definition view (r : route) : N * document :=
  match r with
  | GET_solve req =>
      let response := solve_equation E req in
      (status response, Answer (body response))
  | GET_root => root
  end.

(** Lines 17-103: the application on its two routes, the view first
    and then the hook. *)
Definition create_app (r : route) : flask_response :=
  let (c, d) := view r in
  add_cors_headers (FlaskResponse c d (framework_headers c d)).

End Application.

(* ================================================================== *)
(** ** A scripted engine *)

(** A stand-in for SymPy that knows a handful of inputs, those of the
    scenarios of the API's description.  It serves to run the handler on
    concrete requests. *)
Module Demo.

Inductive pyobj : Type :=
| Expression (text : pystr)
| Equality (l r : pyobj)
| Symbol (name : pystr)
| Boolean (b : bool).

Fixpoint pyobj_eqb (a b : pyobj) : bool :=
  match a, b with
  | Expression s, Expression t => pystr_eqb s t
  | Equality l r, Equality l' r' => pyobj_eqb l l' && pyobj_eqb r r'
  | Symbol s, Symbol t => pystr_eqb s t
  | Boolean x, Boolean y => Bool.eqb x y
  | _, _ => false
  end.

(** Looks [k] up in a table keyed by strings. *)
Fixpoint lookup {A : Type} (k : pystr) (table : list (pystr * A)) : option A :=
  match table with
  | [] => None
  | (k', v) :: table' => if pystr_eqb k k' then Some v else lookup k table'
  end.

(** Input text, printed form, names of the free symbols in the order the
    set happens to be iterated. *)
Definition grammar : list (pystr * (pystr * list pystr)) :=
  [ (lit "0", (lit "0", []));
    (lit "5", (lit "5", []));
    (lit "2+3", (lit "5", []));
    (lit "x", (lit "x", [lit "x"]));
    (lit "2x+4", (lit "2*x + 4", [lit "x"]));
    (lit "x^2+2x-10", (lit "x**2 + 2*x - 10", [lit "x"]));
    (lit "x+y", (lit "x + y", [lit "y"; lit "x"]));
    (lit "b+a", (lit "a + b", [lit "b"; lit "a"]));
    (lit "x^2+1", (lit "x**2 + 1", [lit "x"])) ].

Definition parse (s : pystr) : result pyobj :=
  match lookup s grammar with
  | Some (printed, _) => Ok (Expression printed)
  | None => Exn (lit "invalid syntax")
  end.

Definition names_of_text (t : pystr) : list pystr :=
  match find (fun row => pystr_eqb t (fst (snd row))) grammar with
  | Some (_, (_, names)) => names
  | None => []
  end.

Fixpoint merge_names (a b : list pystr) : list pystr :=
  match a with
  | [] => b
  | n :: a' =>
      if existsb (pystr_eqb n) b then merge_names a' b
      else n :: merge_names a' b
  end.

Fixpoint names (o : pyobj) : list pystr :=
  match o with
  | Expression t => names_of_text t
  | Equality l r => merge_names (names l) (names r)
  | Symbol n => [n]
  | Boolean _ => []
  end.

(** The solutions of [text = 0] for the symbol [v], over the reals. *)
Definition roots (text v : pystr) : list pystr :=
  if pystr_eqb v (lit "x") then
    if pystr_eqb text (lit "x") then [lit "0"]
    else if pystr_eqb text (lit "2*x + 4") then [lit "-2"]
    else if pystr_eqb text (lit "x**2 + 2*x - 10")
         then [lit "-1 + sqrt(11)"; lit "-sqrt(11) - 1"]
    else if pystr_eqb text (lit "x + y") then [lit "-y"]
    else []
  else if pystr_eqb v (lit "y") then
    if pystr_eqb text (lit "x + y") then [lit "-x"] else []
  else [].

Definition solve_for (o v : pyobj) : result (list pyobj) :=
  match v with
  | Symbol n =>
      match o with
      | Expression t => Ok (map Expression (roots t n))
      | Equality (Expression t) (Expression z) =>
          if pystr_eqb z (lit "0") then Ok (map Expression (roots t n))
          else if pystr_eqb t (lit "x + y") && pystr_eqb z (lit "5")
                  && pystr_eqb n (lit "x")
               then Ok [Expression (lit "5 - y")]
          else Ok []
      | _ => Ok []
      end
  | _ => Exn (lit "not a symbol")
  end.

Fixpoint show (o : pyobj) : pystr :=
  match o with
  | Expression t => t
  | Equality l r => lit "Eq(" ++ show l ++ lit ", " ++ show r ++ lit ")"
  | Symbol n => n
  | Boolean true => lit "True"
  | Boolean false => lit "False"
  end.

Definition engine : Engine pyobj := {|
  parse_expr := parse;
  make_Eq := fun l r => Ok (Equality l r);
  isinstance_Eq := fun o => match o with Equality _ _ => true | _ => false end;
  lhs := fun o => match o with Equality l _ => l | _ => o end;
  rhs := fun o => match o with Equality _ r => r | _ => o end;
  free_symbols := fun o => Ok (map Symbol (names o));
  symbols := fun n => Ok (Symbol n);
  equals := fun a b => Ok (Boolean (pyobj_eqb a b));
  solve := solve_for;
  str := show
|}.

(** [GET /solve?equation=...], and with [&variable=...]. *)
Definition get (equation : string) : request :=
  Request (Some (lit equation)) None.

Definition get_for (equation variable : string) : request :=
  Request (Some (lit equation)) (Some (lit variable)).

End Demo.

(** The scenarios of the description, run on the scripted engine. *)
Example scenario_quadratic :
  solve_equation Demo.engine (Demo.get "x^2+2x-10")
  = ok_result (lit "x = -1 + sqrt(11), -sqrt(11) - 1").
Proof. reflexivity. Qed.

Example scenario_linear :
  solve_equation Demo.engine (Demo.get "2x+4=0") = ok_result (lit "x = -2").
Proof. reflexivity. Qed.

Example scenario_constant :
  solve_equation Demo.engine (Demo.get "5=5") = ok_result (lit "True").
Proof. reflexivity. Qed.

Example scenario_missing :
  solve_equation Demo.engine (Demo.get "")
  = bad_request (lit "Missing 'equation' query parameter").
Proof. reflexivity. Qed.

Example scenario_two_variables :
  solve_equation Demo.engine (Demo.get "x+y=5") = ok_result (lit "x = 5 - y").
Proof. reflexivity. Qed.

Example scenario_syntax_error :
  solve_equation Demo.engine (Demo.get "2x+")
  = bad_request (lit "Failed to solve equation: invalid syntax").
Proof. reflexivity. Qed.

Example scenario_no_root :
  solve_equation Demo.engine (Demo.get "x^2+1")
  = ok_result (lit "No solution found").
Proof. reflexivity. Qed.

Example scenario_alphabetical :
  solve_equation Demo.engine (Demo.get "b+a")
  = ok_result (lit "No solution found")
  /\ choose_variable Demo.engine [] (Demo.Expression (lit "a + b"))
       [Demo.Symbol (lit "b"); Demo.Symbol (lit "a")]
     = Next (Demo.Symbol (lit "a")).
Proof. split; reflexivity. Qed.

(* ================================================================== *)
(** ** Strings: comparison, counting, cutting *)

Lemma pystr_eqb_eq (a b : pystr) : pystr_eqb a b = true <-> a = b.
Proof.
  revert b; induction a as [|x a IH]; intros [|y b]; simpl;
    try (split; [discriminate | discriminate]); try tauto.
  rewrite andb_true_iff, N.eqb_eq, IH.
  split; [intros [-> ->]; reflexivity | intros H; inversion H; auto].
Qed.

Lemma existsb_pystr_eqb (a : pystr) (l : list pystr) :
  existsb (pystr_eqb a) l = true <-> In a l.
Proof.
  rewrite existsb_exists; split.
  - intros (b & Hin & Heq). apply pystr_eqb_eq in Heq. now subst.
  - intros Hin. exists a. split; [assumption | now apply pystr_eqb_eq].
Qed.

Lemma count_app (c : N) (s t : pystr) :
  count c (s ++ t) = count c s + count c t.
Proof. induction s as [|d s IH]; simpl; [reflexivity | rewrite IH; lia]. Qed.

Lemma count_rev (c : N) (s : pystr) : count c (rev s) = count c s.
Proof.
  induction s as [|d s IH]; simpl; [reflexivity|].
  rewrite count_app, IH; simpl; lia.
Qed.

Lemma contains_count (c : N) (s : pystr) :
  contains c s = true <-> 0 < count c s.
Proof.
  unfold contains; induction s as [|d s IH]; simpl.
  - split; [discriminate | lia].
  - rewrite orb_true_iff, IH, (N.eqb_sym c d).
    destruct (d =? c)%N; simpl.
    + split; [lia | auto].
    + split; [intros [H|H]; [discriminate | assumption] | auto].
Qed.

Lemma contains_false_count (c : N) (s : pystr) :
  contains c s = false <-> count c s = 0.
Proof.
  pose proof (contains_count c s) as H.
  destruct (contains c s); split; intros Hx; try reflexivity.
  - discriminate.
  - assert (0 < count c s) by (apply H; reflexivity). lia.
  - destruct (count c s) as [|k]; [reflexivity|].
    assert (false = true) by (apply H; lia). discriminate.
Qed.

Lemma split_not_nil (c : N) (s : pystr) : split c s <> [].
Proof.
  destruct s as [|d s]; simpl; [discriminate|].
  destruct (d =? c)%N; [discriminate|].
  destruct (split c s); discriminate.
Qed.

(** [len(s.split(c)) == s.count(c) + 1] *)
Lemma split_length (c : N) (s : pystr) :
  length (split c s) = S (count c s).
Proof.
  induction s as [|d s IH]; simpl; [reflexivity|].
  destruct (d =? c)%N; simpl; [now rewrite IH|].
  destruct (split c s) as [|p ps] eqn:Hs; simpl in *; [discriminate | exact IH].
Qed.

Lemma split_no_separator (c : N) (s : pystr) :
  count c s = 0 -> split c s = [s].
Proof.
  induction s as [|d s IH]; simpl; [reflexivity|].
  destruct (d =? c)%N; simpl; [discriminate|].
  intros H. now rewrite (IH H).
Qed.

Lemma split_app_separator (c : N) (s t : pystr) :
  count c s = 0 -> split c (s ++ c :: t) = s :: split c t.
Proof.
  induction s as [|d s IH]; simpl.
  - now rewrite N.eqb_refl.
  - destruct (d =? c)%N; simpl; [discriminate|].
    intros H. now rewrite (IH H).
Qed.

(** A string cut in two pieces holds the separator once. *)
Lemma split_two_count (c : N) (s a b : pystr) :
  split c s = [a; b] -> count c s = 1.
Proof.
  intros H. pose proof (split_length c s) as L. rewrite H in L.
  simpl in L. lia.
Qed.

Lemma split_two_contains (c : N) (s a b : pystr) :
  split c s = [a; b] -> contains c s = true.
Proof.
  intros H. apply contains_count. rewrite (split_two_count _ _ _ _ H). lia.
Qed.

(* ------------------------------------------------------------------ *)
(** *** Trimming *)

Lemma lstrip_nil_iff (s : pystr) : lstrip s = [] <-> forallb isspace s = true.
Proof.
  induction s as [|d s IH]; simpl; [tauto|].
  destruct (isspace d); simpl; [exact IH|].
  split; discriminate.
Qed.

Lemma lstrip_head (s : pystr) (d : N) (t : pystr) :
  lstrip s = d :: t -> isspace d = false.
Proof.
  induction s as [|x s IH]; simpl; [discriminate|].
  destruct (isspace x) eqn:Hx; [exact IH|].
  intros H; inversion H; subst; exact Hx.
Qed.

Lemma lstrip_app (s t : pystr) :
  lstrip s <> [] -> lstrip (s ++ t) = lstrip s ++ t.
Proof.
  induction s as [|d s IH]; simpl; [congruence|].
  destruct (isspace d); [exact IH | reflexivity].
Qed.

Lemma lstrip_fixed (d : N) (s : pystr) :
  isspace d = false -> lstrip (d :: s) = d :: s.
Proof. intros H; simpl; now rewrite H. Qed.

Lemma lstrip_idempotent (s : pystr) : lstrip (lstrip s) = lstrip s.
Proof.
  destruct (lstrip s) as [|d t] eqn:H; [reflexivity|].
  apply lstrip_fixed. exact (lstrip_head _ _ _ H).
Qed.

Lemma forallb_isspace_rev (s : pystr) :
  forallb isspace (rev s) = forallb isspace s.
Proof.
  induction s as [|d s IH]; simpl; [reflexivity|].
  rewrite forallb_app, IH; simpl. rewrite andb_true_r. apply andb_comm.
Qed.

Lemma forallb_isspace_lstrip (s : pystr) :
  forallb isspace s = false -> forallb isspace (lstrip s) = false.
Proof.
  induction s as [|d s IH]; simpl; [auto|].
  destruct (isspace d) eqn:Hd; simpl; [exact IH|].
  now rewrite Hd.
Qed.

(** A string is trimmed to nothing exactly when it is made of
    whitespace. *)
Lemma strip_nil_iff (s : pystr) : strip s = [] <-> forallb isspace s = true.
Proof.
  unfold strip, rstrip. split.
  - intros H.
    assert (Hr : lstrip (rev (lstrip s)) = []).
    { destruct (lstrip (rev (lstrip s))) as [|d t]; [reflexivity|].
      simpl in H. apply app_eq_nil in H. destruct H; discriminate. }
    apply lstrip_nil_iff in Hr. rewrite forallb_isspace_rev in Hr.
    destruct (forallb isspace s) eqn:Hs; [reflexivity|].
    apply forallb_isspace_lstrip in Hs. congruence.
  - intros H. apply lstrip_nil_iff in H. now rewrite H.
Qed.

Lemma count_lstrip (c : N) (s : pystr) :
  isspace c = false -> count c (lstrip s) = count c s.
Proof.
  intros Hc. induction s as [|d s IH]; simpl; [reflexivity|].
  destruct (isspace d) eqn:Hd; [|reflexivity].
  destruct (N.eqb_spec d c) as [->|_]; [congruence | exact IH].
Qed.

(** Trimming removes no character that is not whitespace. *)
Lemma count_strip (c : N) (s : pystr) :
  isspace c = false -> count c (strip s) = count c s.
Proof.
  intros Hc. unfold strip, rstrip.
  now rewrite count_rev, count_lstrip, count_rev, count_lstrip.
Qed.






(* ------------------------------------------------------------------ *)
(** *** The order of strings and [sorted] *)

Lemma str_le_refl (a : pystr) : str_le a a = true.
Proof.
  induction a as [|x a IH]; simpl; [reflexivity|].
  now rewrite N.ltb_irrefl, N.eqb_refl.
Qed.

Lemma str_le_total (a b : pystr) : str_le a b = true \/ str_le b a = true.
Proof.
  revert b; induction a as [|x a IH]; intros [|y b]; simpl; auto.
  destruct (N.ltb_spec x y), (N.ltb_spec y x); auto.
  assert (x = y) by lia; subst. rewrite N.eqb_refl. apply IH.
Qed.

Lemma str_le_trans (a b c : pystr) :
  str_le a b = true -> str_le b c = true -> str_le a c = true.
Proof.
  revert b c; induction a as [|x a IH]; intros [|y b] [|z c]; simpl;
    auto; try discriminate.
  destruct (N.ltb_spec x y), (N.ltb_spec y z), (N.ltb_spec x z);
    auto; try lia;
    destruct (N.eqb_spec x y), (N.eqb_spec y z), (N.eqb_spec x z);
    auto; try lia; try discriminate.
  apply IH.
Qed.

Lemma str_le_antisym (a b : pystr) :
  str_le a b = true -> str_le b a = true -> a = b.
Proof.
  revert b; induction a as [|x a IH]; intros [|y b]; simpl;
    auto; try discriminate.
  intros H1 H2.
  destruct (N.ltb_spec x y) as [Hxy|Hxy], (N.ltb_spec y x) as [Hyx|Hyx];
    try lia.
  - destruct (N.eqb_spec y x); [lia | discriminate].
  - destruct (N.eqb_spec x y); [lia | discriminate].
  - destruct (N.eqb_spec x y) as [->|]; [|discriminate].
    rewrite N.eqb_refl in H2. f_equal. now apply IH.
Qed.

Lemma insert_sorted_perm (a : pystr) (l : list pystr) :
  Permutation (insert_sorted a l) (a :: l).
Proof.
  induction l as [|b l IH]; simpl; [reflexivity|].
  destruct (str_le a b); [reflexivity|].
  rewrite IH. apply perm_swap.
Qed.

(** [sorted] rearranges its argument. *)
Lemma sorted_perm (l : list pystr) : Permutation (sorted l) l.
Proof.
  induction l as [|a l IH]; simpl; [reflexivity|].
  unfold sorted in *. rewrite insert_sorted_perm. now constructor.
Qed.

Lemma insert_sorted_ordered (a : pystr) (l : list pystr) :
  StronglySorted str_order l -> StronglySorted str_order (insert_sorted a l).
Proof.
  induction l as [|b l IH]; simpl; intros Hs.
  - repeat constructor.
  - inversion Hs as [|? ? Hl Hb]; subst.
    destruct (str_le a b) eqn:Hab.
    + constructor; [assumption|]. constructor; [exact Hab|].
      eapply Forall_impl; [|exact Hb].
      intros c Hc. exact (str_le_trans _ _ _ Hab Hc).
    + constructor; [now apply IH|].
      eapply Permutation_Forall;
        [symmetry; apply insert_sorted_perm|].
      constructor; [|assumption].
      destruct (str_le_total a b) as [H|H]; [congruence | exact H].
Qed.

(** [sorted] gives an ordered list. *)
Lemma sorted_ordered (l : list pystr) : StronglySorted str_order (sorted l).
Proof.
  induction l as [|a l IH]; simpl; [constructor|].
  now apply insert_sorted_ordered.
Qed.

Lemma sorted_length (l : list pystr) : length (sorted l) = length l.
Proof. apply Permutation_length, sorted_perm. Qed.

(** The head of [sorted(l)] is the first name of [l]. *)
Lemma sorted_head_first (l : list pystr) (n : pystr) (rest : list pystr) :
  sorted l = n :: rest -> alphabetically_first n l.
Proof.
  intros H. pose proof (sorted_ordered l) as Hs.
  pose proof (sorted_perm l) as Hp. rewrite H in Hs, Hp.
  inversion Hs as [|? ? _ Hall]; subst. split.
  - eapply Permutation_in; [exact Hp | now left].
  - intros m Hm.
    apply (Permutation_in _ (Permutation_sym Hp)) in Hm.
    destruct Hm as [<-|Hm]; [apply str_le_refl|].
    rewrite Forall_forall in Hall. now apply Hall.
Qed.

Lemma alphabetically_first_unique (n m : pystr) (l : list pystr) :
  alphabetically_first n l -> alphabetically_first m l -> n = m.
Proof.
  intros [Hn Hln] [Hm Hlm]. apply str_le_antisym; auto.
Qed.



(** The comma-separated text is what [", ".join] builds. *)
Lemma join_comma_separated (l : list pystr) :
  join (lit ", ") l = comma_separated l.
Proof.
  destruct l as [|a l]; [reflexivity|].
  revert a; induction l as [|b l IH]; intros a.
  - simpl. now rewrite app_nil_r.
  - change (join (lit ", ") (a :: b :: l))
      with (a ++ lit ", " ++ join (lit ", ") (b :: l)).
    rewrite IH. unfold comma_separated. simpl map. simpl concat.
    now rewrite <- ?app_assoc.
Qed.

(* ================================================================== *)
(** ** The handler, step by step *)

Section HandlerFacts.

Context {Obj : Type}.
Variable E : Engine Obj.

Lemma solve_equation_try (req : request) :
  equation_arg req <> [] ->
  solve_equation E req
  = catch (try_block E (equation_arg req) (variable_arg req)).
Proof.
  unfold solve_equation. destruct (equation_arg req); [congruence | reflexivity].
Qed.

Lemma parse_input_expression (equation : pystr) :
  contains EQUALS_SIGN equation = false ->
  parse_input E equation = call (parse_expr E equation).
Proof. intros H. unfold parse_input. now rewrite H. Qed.

Lemma parse_input_equation (equation a b : pystr) :
  split EQUALS_SIGN equation = [a; b] ->
  parse_input E equation
  = (l <- call (parse_expr E (strip a)) ;;
     r <- call (parse_expr E (strip b)) ;;
     call (make_Eq E l r)).
Proof.
  intros H. unfold parse_input.
  rewrite (split_two_contains _ _ _ _ H), H. reflexivity.
Qed.

Lemma parse_input_format (equation : pystr) :
  2 <= count EQUALS_SIGN equation ->
  parse_input E equation = Return (bad_request MSG_FORMAT).
Proof.
  intros H. unfold parse_input.
  assert (Hc : contains EQUALS_SIGN equation = true)
    by (apply contains_count; lia).
  rewrite Hc, split_length.
  destruct (Nat.eqb_spec (S (count EQUALS_SIGN equation)) 2); [lia | reflexivity].
Qed.

Lemma get_free_syms_eq (expr : Obj) :
  get_free_syms E expr = free_symbols E expr.
Proof. unfold get_free_syms. now destruct (isinstance_Eq E expr). Qed.

(** With two names or more, [sorted] has a head. *)
Lemma choose_variable_many (expr : Obj) (free_syms : list Obj) :
  2 <= length free_syms ->
  choose_variable E [] expr free_syms
  = if existsb (pystr_eqb (lit "x")) (sorted (map (str E) free_syms))
    then call (symbols E (lit "x"))
    else match sorted (map (str E) free_syms) with
         | n :: _ => call (symbols E n)
         | [] => Raise (lit "list index out of range")
         end.
Proof.
  destruct free_syms as [|s [|s' l]]; simpl length; intros H; try lia.
  reflexivity.
Qed.

Lemma in_sorted_names (n : pystr) (l : list pystr) :
  existsb (pystr_eqb n) (sorted l) = true <-> In n l.
Proof.
  rewrite existsb_pystr_eqb. split; apply Permutation_in;
    [apply sorted_perm | symmetry; apply sorted_perm].
Qed.

Lemma choose_variable_explicit (variable : pystr) (expr : Obj)
    (free_syms : list Obj) :
  variable <> [] ->
  choose_variable E variable expr free_syms = call (symbols E variable).
Proof. destruct variable; [congruence | reflexivity]. Qed.

Lemma choose_variable_x (expr : Obj) (free_syms : list Obj) :
  2 <= length free_syms ->
  In (lit "x") (map (str E) free_syms) ->
  choose_variable E [] expr free_syms = call (symbols E (lit "x")).
Proof.
  intros Hlen Hx. rewrite choose_variable_many by assumption.
  apply in_sorted_names in Hx. now rewrite Hx.
Qed.

Lemma choose_variable_first (expr : Obj) (free_syms : list Obj) (n : pystr) :
  2 <= length free_syms ->
  ~ In (lit "x") (map (str E) free_syms) ->
  alphabetically_first n (map (str E) free_syms) ->
  choose_variable E [] expr free_syms = call (symbols E n).
Proof.
  intros Hlen Hx Hn. rewrite choose_variable_many by assumption.
  destruct (existsb (pystr_eqb (lit "x")) (sorted (map (str E) free_syms)))
    eqn:Hex; [apply in_sorted_names in Hex; contradiction|].
  destruct (sorted (map (str E) free_syms)) as [|m rest] eqn:Hs.
  - pose proof (sorted_length (map (str E) free_syms)) as Hl.
    rewrite Hs, length_map in Hl. simpl in Hl. lia.
  - apply sorted_head_first in Hs.
    now rewrite (alphabetically_first_unique _ _ _ Hn Hs).
Qed.

(** Every list of names that is not empty has a first name. *)
Lemma alphabetically_first_exists (l : list pystr) :
  l <> [] -> exists n, alphabetically_first n l.
Proof.
  intros Hl. destruct (sorted l) as [|n rest] eqn:Hs.
  - pose proof (sorted_length l) as H. rewrite Hs in H.
    destruct l; [congruence | discriminate].
  - exists n. exact (sorted_head_first _ _ _ Hs).
Qed.

(** The run up to the call of the solver. *)
Lemma try_block_solve (equation variable : pystr) (expr : Obj)
    (free_syms : list Obj) (solve_var : Obj) :
  parse_input E equation = Next expr ->
  free_symbols E expr = Ok free_syms ->
  choose_variable E variable expr free_syms = Next solve_var ->
  catch (try_block E equation variable)
  = after_solve E solve_var (solve E expr solve_var).
Proof.
  intros Hp Hf Hc. unfold try_block.
  rewrite Hp; simpl. rewrite get_free_syms_eq, Hf; simpl. rewrite Hc; simpl.
  now destruct (solve E expr solve_var).
Qed.

End HandlerFacts.

(* ================================================================== *)
(** ** Validation of the request *)

(** C4: a request whose [equation] argument is missing, empty or made of
    whitespace only is answered with status 400 and the body
    [{"error": "Missing 'equation' query parameter"}], whatever the
    [variable] argument is. *)
Theorem missing_equation_rejected {Obj : Type} (E : Engine Obj)
    (equation variable : option pystr) :
  (equation = None
   \/ exists s, equation = Some s /\ forallb isspace s = true) ->
  solve_equation E (Request equation variable)
  = Response 400 (JError (lit "Missing 'equation' query parameter")).
Proof.
  intros H. unfold solve_equation, equation_arg; simpl.
  destruct H as [->|(s & -> & Hs)]; simpl; [reflexivity|].
  apply strip_nil_iff in Hs. now rewrite Hs.
Qed.

Lemma missing_equation_rejected_witness :
  solve_equation Demo.engine (Request (Some (lit "   ")) (Some (lit "x")))
  = Response 400 (JError (lit "Missing 'equation' query parameter")).
Proof.
  apply (missing_equation_rejected Demo.engine
           (Some (lit "   ")) (Some (lit "x"))).
  right. exists (lit "   "). split; reflexivity.
Defined.

(** C5: an equation with two [=] signs or more is answered with status
    400 and the body
    [{"error": "Invalid equation format. Use single '=' sign."}].  (Such
    a string is never empty after trimming: [=] is no whitespace.) *)
Theorem several_equals_signs_rejected {Obj : Type} (E : Engine Obj)
    (equation : pystr) (variable : option pystr) :
  2 <= count EQUALS_SIGN equation ->
  solve_equation E (Request (Some equation) variable)
  = Response 400
      (JError (lit "Invalid equation format. Use single '=' sign.")).
Proof.
  intros H.
  assert (Hc : 2 <= count EQUALS_SIGN (strip equation))
    by (rewrite count_strip; [exact H | reflexivity]).
  rewrite solve_equation_try.
  - unfold equation_arg, try_block; simpl.
    now rewrite (parse_input_format E _ Hc).
  - unfold equation_arg; simpl. intros Hnil. rewrite Hnil in Hc.
    simpl in Hc. lia.
Qed.

Lemma several_equals_signs_rejected_witness :
  2 <= count EQUALS_SIGN (lit "1=2=3")
  /\ solve_equation Demo.engine (Demo.get "1=2=3")
     = Response 400
         (JError (lit "Invalid equation format. Use single '=' sign.")).
Proof.
  split; [vm_compute; lia|].
  apply (several_equals_signs_rejected Demo.engine (lit "1=2=3") None).
  vm_compute; lia.
Defined.

(** C9: a [variable] argument that is present but empty or made of
    whitespace only is handled as an absent one: the response is the
    one of the same request without [variable], and the choice of the
    variable is the one made for no requested name. *)
Theorem blank_variable_is_absent {Obj : Type} (E : Engine Obj)
    (equation : option pystr) (variable : pystr) :
  forallb isspace variable = true ->
  solve_equation E (Request equation (Some variable))
  = solve_equation E (Request equation None)
  /\ forall expr free_syms,
       choose_variable E (variable_arg (Request equation (Some variable)))
         expr free_syms
       = choose_variable E [] expr free_syms.
Proof.
  intros H. apply strip_nil_iff in H.
  unfold solve_equation, variable_arg, equation_arg; simpl.
  rewrite H. split; reflexivity.
Qed.

Lemma blank_variable_is_absent_witness :
  solve_equation Demo.engine (Demo.get_for "x+y=5" "  ")
  = solve_equation Demo.engine (Demo.get "x+y=5").
Proof.
  apply (blank_variable_is_absent Demo.engine (Some (lit "x+y=5")) (lit "  ")).
  reflexivity.
Defined.

(* ================================================================== *)
(** ** The variable solved for *)

(** C2: the variable handed to the solver.  A requested name (not empty
    once trimmed) gives the symbol of that name, whether or not it is
    among the free symbols; without one, a sole free symbol is taken;
    with several free symbols, the symbol named [x] when [x] is one of
    the names, else the symbol of the first name in the order of
    strings.  In each case the response is built from what the solver
    answers for that variable. *)
Theorem variable_precedence {Obj : Type} (E : Engine Obj) (req : request)
    (expr : Obj) (free_syms : list Obj) :
  let variable := variable_arg req in
  let names := map (str E) free_syms in
  let solved_for v :=
    solve_equation E req = after_solve E v (solve E expr v) in
  equation_arg req <> [] ->
  parse_input E (equation_arg req) = Next expr ->
  free_symbols E expr = Ok free_syms ->
  (variable <> [] ->
   forall v, symbols E variable = Ok v -> solved_for v)
  /\ (variable = [] -> forall s, free_syms = [s] -> solved_for s)
  /\ (variable = [] -> 2 <= length free_syms -> In (lit "x") names ->
      forall v, symbols E (lit "x") = Ok v -> solved_for v)
  /\ (variable = [] -> 2 <= length free_syms -> ~ In (lit "x") names ->
      (exists n, alphabetically_first n names)
      /\ forall n, alphabetically_first n names ->
         forall v, symbols E n = Ok v -> solved_for v).
Proof.
  intros variable names solved_for Hne Hp Hf. subst solved_for; simpl.
  rewrite solve_equation_try by assumption. fold variable.
  split; [|split; [|split]].
  - intros Hv v Hs. apply (try_block_solve E _ _ _ _ _ Hp Hf).
    rewrite choose_variable_explicit by assumption. now rewrite Hs.
  - intros Hv s ->. apply (try_block_solve E _ _ _ _ _ Hp Hf).
    now rewrite Hv.
  - intros Hv Hlen Hx v Hs. apply (try_block_solve E _ _ _ _ _ Hp Hf).
    rewrite Hv, choose_variable_x by assumption. now rewrite Hs.
  - intros Hv Hlen Hx. split.
    + apply alphabetically_first_exists. subst names.
      destruct free_syms; [simpl in Hlen; lia | discriminate].
    + intros n Hn v Hs. apply (try_block_solve E _ _ _ _ _ Hp Hf).
      rewrite Hv, (choose_variable_first E _ _ n) by assumption.
      now rewrite Hs.
Qed.

Lemma variable_precedence_witness :
  solve_equation Demo.engine (Demo.get_for "x+y" "y")
  = ok_result (lit "y = -x")
  /\ solve_equation Demo.engine (Demo.get "2x+4") = ok_result (lit "x = -2")
  /\ solve_equation Demo.engine (Demo.get "x+y=5")
     = ok_result (lit "x = 5 - y")
  /\ solve_equation Demo.engine (Demo.get "b+a")
     = after_solve Demo.engine (Demo.Symbol (lit "a"))
         (solve Demo.engine (Demo.Expression (lit "a + b"))
            (Demo.Symbol (lit "a"))).
Proof.
  split; [|split; [|split]]; cycle 3.
  - refine (proj2 (proj2 (proj2 (proj2 (variable_precedence Demo.engine
                     (Demo.get "b+a") (Demo.Expression (lit "a + b"))
                     [Demo.Symbol (lit "b"); Demo.Symbol (lit "a")]
                     _ eq_refl eq_refl))) eq_refl _ _)
             (lit "a") _ (Demo.Symbol (lit "a")) eq_refl).
    + vm_compute; discriminate.
    + vm_compute; lia.
    + vm_compute. intros [H|[H|[]]]; discriminate.
    + split; [right; left; reflexivity|].
      intros m [<-|[<-|[]]]; reflexivity.
  - refine (proj1 (variable_precedence Demo.engine (Demo.get_for "x+y" "y")
                     (Demo.Expression (lit "x + y"))
                     [Demo.Symbol (lit "y"); Demo.Symbol (lit "x")]
                     _ eq_refl eq_refl) _ (Demo.Symbol (lit "y")) eq_refl);
      vm_compute; discriminate.
  - exact (proj1 (proj2 (variable_precedence Demo.engine (Demo.get "2x+4")
                     (Demo.Expression (lit "2*x + 4"))
                     [Demo.Symbol (lit "x")]
                     ltac:(vm_compute; discriminate) eq_refl eq_refl))
             eq_refl (Demo.Symbol (lit "x")) eq_refl).
  - refine (proj1 (proj2 (proj2 (variable_precedence Demo.engine
                     (Demo.get "x+y=5")
                     (Demo.Equality (Demo.Expression (lit "x + y"))
                                    (Demo.Expression (lit "5")))
                     [Demo.Symbol (lit "y"); Demo.Symbol (lit "x")]
                     _ eq_refl eq_refl)))
             eq_refl _ _ (Demo.Symbol (lit "x")) eq_refl).
    + vm_compute; discriminate.
    + vm_compute; lia.
    + vm_compute; auto.
Defined.

(* ================================================================== *)
(** ** The text of the answer *)

(** C6: when the solver, called for the variable [v], answers with a
    list of solutions, the response has status 200 and its [result] is
    [No solution found] for no solution, [<v> = <solution>] for one, and
    [<v> = <sol1>, <sol2>, ...] for several, the solutions in the order
    of the solver's list. *)
Theorem solutions_formatted {Obj : Type} (E : Engine Obj) (req : request)
    (expr : Obj) (free_syms : list Obj) (v : Obj) (solutions : list Obj) :
  equation_arg req <> [] ->
  parse_input E (equation_arg req) = Next expr ->
  free_symbols E expr = Ok free_syms ->
  choose_variable E (variable_arg req) expr free_syms = Next v ->
  solve E expr v = Ok solutions ->
  (solutions = [] ->
   solve_equation E req = Response 200 (JResult (lit "No solution found")))
  /\ (forall s, solutions = [s] ->
      solve_equation E req
      = Response 200 (JResult (str E v ++ lit " = " ++ str E s)))
  /\ (2 <= length solutions ->
      solve_equation E req
      = Response 200
          (JResult (str E v ++ lit " = "
                    ++ comma_separated (map (str E) solutions)))).
Proof.
  intros Hne Hp Hf Hc Hs.
  rewrite solve_equation_try by assumption.
  rewrite (try_block_solve E _ _ _ _ _ Hp Hf Hc), Hs. simpl.
  repeat split.
  - now intros ->.
  - now intros s ->.
  - intros Hlen. rewrite <- join_comma_separated.
    destruct solutions as [|s [|s' l]]; simpl in Hlen; try lia. reflexivity.
Qed.

Lemma solutions_formatted_witness :
  solve_equation Demo.engine (Demo.get "x^2+2x-10")
  = Response 200 (JResult (lit "x = -1 + sqrt(11), -sqrt(11) - 1"))
  /\ solve_equation Demo.engine (Demo.get "2x+4=0")
     = Response 200 (JResult (lit "x = -2"))
  /\ solve_equation Demo.engine (Demo.get "x^2+1")
     = Response 200 (JResult (lit "No solution found")).
Proof.
  split; [|split].
  - refine (proj2 (proj2 (solutions_formatted Demo.engine
              (Demo.get "x^2+2x-10")
              (Demo.Expression (lit "x**2 + 2*x - 10"))
              [Demo.Symbol (lit "x")] (Demo.Symbol (lit "x"))
              [Demo.Expression (lit "-1 + sqrt(11)");
               Demo.Expression (lit "-sqrt(11) - 1")]
              _ eq_refl eq_refl eq_refl eq_refl)) _).
    + vm_compute; discriminate.
    + vm_compute; lia.
  - refine (proj1 (proj2 (solutions_formatted Demo.engine
              (Demo.get "2x+4=0")
              (Demo.Equality (Demo.Expression (lit "2*x + 4"))
                             (Demo.Expression (lit "0")))
              [Demo.Symbol (lit "x")] (Demo.Symbol (lit "x"))
              [Demo.Expression (lit "-2")]
              _ eq_refl eq_refl eq_refl eq_refl))
              (Demo.Expression (lit "-2")) eq_refl).
    vm_compute; discriminate.
  - refine (proj1 (solutions_formatted Demo.engine
              (Demo.get "x^2+1")
              (Demo.Expression (lit "x**2 + 1"))
              [Demo.Symbol (lit "x")] (Demo.Symbol (lit "x")) []
              _ eq_refl eq_refl eq_refl eq_refl) eq_refl).
    vm_compute; discriminate.
Defined.

(* ================================================================== *)
(** ** Inputs without variables *)

(** C3: when the parsed input has no free symbol and no variable is
    requested, the solver is not called.  For an equation (the test
    [isinstance(expr, Eq)] of the source) the two sides are compared
    with [equals] and the response is 200 with the outcome of that test
    as a string; for an expression the response is 200 with the
    expression as a string. *)
Theorem constants_evaluated {Obj : Type} (E : Engine Obj) (req : request)
    (expr : Obj) :
  equation_arg req <> [] ->
  variable_arg req = [] ->
  parse_input E (equation_arg req) = Next expr ->
  free_symbols E expr = Ok [] ->
  (isinstance_Eq E expr = true ->
   forall t, equals E (lhs E expr) (rhs E expr) = Ok t ->
   solve_equation E req = Response 200 (JResult (str E t)))
  /\ (isinstance_Eq E expr = false ->
      solve_equation E req = Response 200 (JResult (str E expr))).
Proof.
  intros Hne Hv Hp Hf.
  rewrite solve_equation_try by assumption.
  unfold try_block. rewrite Hp; simpl.
  rewrite get_free_syms_eq, Hf, Hv; simpl.
  split.
  - intros Hi t Ht. now rewrite Hi, Ht.
  - intros Hi. now rewrite Hi.
Qed.

Lemma constants_evaluated_witness :
  solve_equation Demo.engine (Demo.get "5=5")
  = Response 200 (JResult (lit "True"))
  /\ solve_equation Demo.engine (Demo.get "2+3")
     = Response 200 (JResult (lit "5")).
Proof.
  split.
  - refine (proj1 (constants_evaluated Demo.engine (Demo.get "5=5")
              (Demo.Equality (Demo.Expression (lit "5"))
                             (Demo.Expression (lit "5")))
              _ eq_refl eq_refl eq_refl) eq_refl (Demo.Boolean true) eq_refl).
    vm_compute; discriminate.
  - refine (proj2 (constants_evaluated Demo.engine (Demo.get "2+3")
              (Demo.Expression (lit "5")) _ eq_refl eq_refl eq_refl) eq_refl).
    vm_compute; discriminate.
Defined.

(* ================================================================== *)
(** ** Exceptions *)

Section ExceptionFacts.

Context {Obj : Type}.
Variable E : Engine Obj.

(** The block once the input is parsed and its free symbols read. *)
Lemma try_block_choose (equation variable : pystr) (expr : Obj)
    (free_syms : list Obj) :
  parse_input E equation = Next expr ->
  free_symbols E expr = Ok free_syms ->
  try_block E equation variable
  = (solve_var <- choose_variable E variable expr free_syms ;;
     solutions <- call (solve E expr solve_var) ;;
     Return (format_solutions E solve_var solutions)).
Proof.
  intros Hp Hf. unfold try_block. rewrite Hp; simpl.
  now rewrite get_free_syms_eq, Hf.
Qed.

(** Each raising call ends the block with its exception. *)
Lemma raised_in_try_raise (equation variable msg : pystr) :
  raised_in_try E equation variable msg ->
  try_block E equation variable = Raise msg.
Proof.
  intros [Hc Hp | a b Hs Ha | a b l Hs Ha Hb | a b l r Hs Ha Hb He
         | expr Hp Hf | expr fs Hp Hf Hv Hy | expr Hp Hf Hv Hi Hq
         | expr fs Hp Hf Hv Hlen Hx Hy | expr fs n Hp Hf Hv Hlen Hx Hn Hy
         | expr fs v Hp Hf Hc Hy];
    try (rewrite (try_block_choose _ _ _ _ Hp Hf));
    unfold try_block.
  - now rewrite parse_input_expression, Hp.
  - now rewrite (parse_input_equation E _ _ _ Hs), Ha.
  - rewrite (parse_input_equation E _ _ _ Hs), Ha; simpl. now rewrite Hb.
  - rewrite (parse_input_equation E _ _ _ Hs), Ha; simpl.
    rewrite Hb; simpl. now rewrite He.
  - rewrite Hp; simpl. now rewrite get_free_syms_eq, Hf.
  - rewrite choose_variable_explicit by assumption. now rewrite Hy.
  - rewrite Hv; simpl. now rewrite Hi, Hq.
  - rewrite Hv, choose_variable_x by assumption. now rewrite Hy.
  - rewrite Hv, (choose_variable_first E _ _ n) by assumption.
    now rewrite Hy.
  - rewrite Hc; simpl. now rewrite Hy.
Qed.

Lemma parse_input_raise (equation msg : pystr) :
  parse_input E equation = Raise msg ->
  (contains EQUALS_SIGN equation = false /\ parse_expr E equation = Exn msg)
  \/ exists a b, split EQUALS_SIGN equation = [a; b]
       /\ (parse_expr E (strip a) = Exn msg
           \/ exists l, parse_expr E (strip a) = Ok l
                /\ (parse_expr E (strip b) = Exn msg
                    \/ exists r, parse_expr E (strip b) = Ok r
                         /\ make_Eq E l r = Exn msg)).
Proof.
  unfold parse_input.
  destruct (contains EQUALS_SIGN equation) eqn:Hc.
  - destruct (split EQUALS_SIGN equation) as [|a [|b [|c parts]]] eqn:Hs;
      simpl; try discriminate.
    intros H. right. exists a, b. split; [reflexivity|].
    destruct (parse_expr E (strip a)) as [l|m]; simpl in H;
      [|left; congruence].
    right. exists l. split; [reflexivity|].
    destruct (parse_expr E (strip b)) as [r|m]; simpl in H;
      [|left; congruence].
    right. exists r. split; [reflexivity|].
    destruct (make_Eq E l r); simpl in H; congruence.
  - intros H. left. split; [reflexivity|].
    destruct (parse_expr E equation); simpl in H; congruence.
Qed.

Lemma choose_variable_raise (variable : pystr) (expr : Obj)
    (free_syms : list Obj) (msg : pystr) :
  choose_variable E variable expr free_syms = Raise msg ->
  (variable <> [] /\ symbols E variable = Exn msg)
  \/ (variable = [] /\ free_syms = [] /\ isinstance_Eq E expr = true
      /\ equals E (lhs E expr) (rhs E expr) = Exn msg)
  \/ (variable = [] /\ 2 <= length free_syms
      /\ In (lit "x") (map (str E) free_syms)
      /\ symbols E (lit "x") = Exn msg)
  \/ (variable = [] /\ 2 <= length free_syms
      /\ ~ In (lit "x") (map (str E) free_syms)
      /\ exists n, alphabetically_first n (map (str E) free_syms)
           /\ symbols E n = Exn msg).
Proof.
  destruct variable as [|c variable].
  - destruct free_syms as [|s [|s' l]].
    + simpl. destruct (isinstance_Eq E expr); [|discriminate].
      destruct (equals E (lhs E expr) (rhs E expr)) eqn:Hq;
        simpl; [discriminate|].
      intros H. right; left. repeat split; congruence.
    + discriminate.
    + assert (Hlen : 2 <= length (s :: s' :: l)) by (simpl; lia).
      rewrite choose_variable_many by assumption.
      destruct (existsb _ _) eqn:Hx.
      * apply in_sorted_names in Hx.
        destruct (symbols E (lit "x")) eqn:Hy; simpl; [discriminate|].
        intros H. right; right; left. repeat split; auto; congruence.
      * assert (Hnx : ~ In (lit "x") (map (str E) (s :: s' :: l))).
        { intros Hin. apply in_sorted_names in Hin. congruence. }
        destruct (sorted (map (str E) (s :: s' :: l))) as [|n rest] eqn:Hs.
        { pose proof (sorted_length (map (str E) (s :: s' :: l))) as Hl.
          rewrite Hs in Hl. discriminate. }
        apply sorted_head_first in Hs.
        destruct (symbols E n) eqn:Hy; simpl; [discriminate|].
        intros H. right; right; right. repeat split; auto.
        exists n. split; [assumption | congruence].
  - simpl. destruct (symbols E (c :: variable)) eqn:Hy; simpl;
      [discriminate|].
    intros H. left. split; congruence.
Qed.

(** The block raises only through one of the listed calls. *)
Lemma try_block_raise (equation variable msg : pystr) :
  try_block E equation variable = Raise msg ->
  raised_in_try E equation variable msg.
Proof.
  unfold try_block.
  destruct (parse_input E equation) as [expr|r|m] eqn:Hp; simpl;
    [|discriminate|].
  - rewrite get_free_syms_eq.
    destruct (free_symbols E expr) as [fs|m] eqn:Hf; simpl.
    + destruct (choose_variable E variable expr fs) as [v|r|m] eqn:Hc;
        simpl; [|discriminate|].
      * destruct (solve E expr v) eqn:Hy; simpl; [discriminate|].
        intros H. eapply raised_solve; eauto. congruence.
      * intros H. assert (m = msg) by congruence. subst m.
        apply choose_variable_raise in Hc.
        destruct Hc as [(Hv & Hy) | [(Hv & -> & Hi & Hq)
                       | [(Hv & Hlen & Hx & Hy)
                       | (Hv & Hlen & Hx & n & Hn & Hy)]]].
        -- eapply raised_symbols; eauto.
        -- eapply raised_equals; eauto.
        -- eapply raised_symbols_x; eauto.
        -- eapply raised_symbols_first; eauto.
    + intros H. eapply raised_free_symbols; eauto. congruence.
  - intros H. assert (m = msg) by congruence. subst m.
    apply parse_input_raise in Hp.
    destruct Hp as [(Hc & Hy) | (a & b & Hs & [Ha | (l & Ha & [Hb
                   | (r & Hb & He)])])].
    + now apply raised_parse_expression.
    + eapply raised_parse_lhs; eauto.
    + eapply raised_parse_rhs; eauto.
    + eapply raised_make_Eq; eauto.
Qed.

(** The listed calls are the ways, and the only ways, the block can
    raise. *)
Lemma raised_in_try_iff (equation variable msg : pystr) :
  raised_in_try E equation variable msg
  <-> try_block E equation variable = Raise msg.
Proof. split; [apply raised_in_try_raise | apply try_block_raise]. Qed.

(** A raising call gives the response of the [except] clause. *)
Lemma exceptions_fail (req : request) (msg : pystr) :
  equation_arg req <> [] ->
  raised_in_try E (equation_arg req) (variable_arg req) msg ->
  solve_equation E req = bad_request (MSG_FAILED ++ msg).
Proof.
  intros Hne Hr. rewrite solve_equation_try by assumption.
  now rewrite (raised_in_try_raise _ _ _ Hr).
Qed.

End ExceptionFacts.



(** C10: an equation with one [=] sign and an empty side passes the
    check of the format; the parser is then called on the empty string.
    With a parser that rejects the empty string, the response is 400
    with the body [{"error": "Failed to solve equation: <message>"}],
    the message being the one the parser raised on a side, and not the
    response for a wrong format. *)
Theorem empty_side_fails_in_parsing {Obj : Type} (E : Engine Obj)
    (req : request) (a b msg : pystr) :
  split EQUALS_SIGN (equation_arg req) = [a; b] ->
  strip a = [] \/ strip b = [] ->
  parse_expr E [] = Exn msg ->
  exists m,
    solve_equation E req
    = Response 400 (JError (lit "Failed to solve equation: " ++ m))
    /\ (parse_expr E (strip a) = Exn m \/ parse_expr E (strip b) = Exn m)
    /\ solve_equation E req
       <> Response 400
            (JError (lit "Invalid equation format. Use single '=' sign.")).
Proof.
  intros Hs Hside Hempty.
  assert (Hne : equation_arg req <> []).
  { intros Hnil. rewrite Hnil in Hs. discriminate. }
  assert (Hm : exists m,
             raised_in_try E (equation_arg req) (variable_arg req) m
             /\ (parse_expr E (strip a) = Exn m
                 \/ parse_expr E (strip b) = Exn m)).
  { destruct (parse_expr E (strip a)) as [l|m] eqn:Ha.
    - destruct Hside as [Hnil|Hnil]; [rewrite Hnil in Ha; congruence|].
      exists msg. rewrite Hnil. split; [|now right].
      eapply raised_parse_rhs; eauto. now rewrite Hnil.
    - exists m. split; [|now left]. eapply raised_parse_lhs; eauto. }
  destruct Hm as (m & Hr & Hwhere). exists m.
  rewrite (exceptions_fail E req m Hne Hr).
  repeat split; [assumption|]. discriminate.
Qed.

Lemma empty_side_fails_in_parsing_witness :
  exists m,
    solve_equation Demo.engine (Demo.get "x=")
    = Response 400 (JError (lit "Failed to solve equation: " ++ m))
    /\ (parse_expr Demo.engine (strip (lit "x")) = Exn m
        \/ parse_expr Demo.engine (strip []) = Exn m)
    /\ solve_equation Demo.engine (Demo.get "x=")
       <> Response 400
            (JError (lit "Invalid equation format. Use single '=' sign.")).
Proof.
  apply (empty_side_fails_in_parsing Demo.engine (Demo.get "x=")
           (lit "x") [] (lit "invalid syntax")).
  - reflexivity.
  - right; reflexivity.
  - reflexivity.
Defined.

(* ================================================================== *)
(** ** A bare expression and the equation with right-hand side 0 *)




(* ================================================================== *)
(** ** One request, one response *)

Section Determinism.

Context {Obj : Type}.
Variable E : Engine Obj.


End Determinism.



(* ================================================================== *)
(** ** More on trimming and cutting *)

Lemma lstrip_app_space (w u : pystr) :
  forallb isspace w = true -> lstrip (w ++ u) = lstrip u.
Proof.
  induction w as [|d w IH]; simpl; [reflexivity|].
  intros H. apply andb_true_iff in H. destruct H as [Hd Hw].
  rewrite Hd. now apply IH.
Qed.

Lemma lstrip_decompose (s : pystr) :
  exists w, forallb isspace w = true /\ s = w ++ lstrip s.
Proof.
  induction s as [|d s (w & Hw & Hs)]; [now exists []|].
  simpl. destruct (isspace d) eqn:Hd.
  - exists (d :: w). simpl. rewrite Hd, Hw. split; [reflexivity|].
    now rewrite <- Hs.
  - now exists [].
Qed.

Lemma rstrip_nil_iff (s : pystr) : rstrip s = [] <-> forallb isspace s = true.
Proof.
  unfold rstrip. rewrite <- forallb_isspace_rev, <- lstrip_nil_iff.
  split; intros H.
  - destruct (lstrip (rev s)) as [|d t]; [reflexivity|].
    simpl in H. apply app_eq_nil in H. destruct H; discriminate.
  - now rewrite H.
Qed.

Lemma rstrip_app_space (u w : pystr) :
  forallb isspace w = true -> rstrip (u ++ w) = rstrip u.
Proof.
  intros H. unfold rstrip. rewrite rev_app_distr.
  now rewrite lstrip_app_space by (now rewrite forallb_isspace_rev).
Qed.

Lemma rstrip_app (w u : pystr) :
  rstrip u <> [] -> rstrip (w ++ u) = w ++ rstrip u.
Proof.
  intros H. unfold rstrip in *. rewrite rev_app_distr.
  rewrite lstrip_app.
  - now rewrite rev_app_distr, rev_involutive.
  - intros Hnil. apply H. now rewrite Hnil.
Qed.

Lemma rstrip_cons_fixed (d : N) (b : pystr) :
  isspace d = false -> rstrip (d :: b) = d :: rstrip b.
Proof.
  intros Hd. unfold rstrip. simpl rev.
  destruct (lstrip (rev b)) as [|x t] eqn:Hl.
  - apply lstrip_nil_iff in Hl. rewrite lstrip_app_space by assumption.
    simpl. now rewrite Hd.
  - rewrite lstrip_app by congruence. rewrite Hl.
    now rewrite rev_app_distr.
Qed.

Lemma rstrip_app_fixed (x : pystr) (d : N) (b : pystr) :
  isspace d = false -> rstrip (x ++ d :: b) = x ++ d :: rstrip b.
Proof.
  intros Hd. rewrite rstrip_app; rewrite rstrip_cons_fixed by assumption;
    [reflexivity | discriminate].
Qed.

Lemma lstrip_app_fixed (a : pystr) (d : N) (b : pystr) :
  isspace d = false -> lstrip (a ++ d :: b) = lstrip a ++ d :: b.
Proof.
  intros Hd. destruct (lstrip a) as [|x t] eqn:Hl.
  - apply lstrip_nil_iff in Hl. rewrite lstrip_app_space by assumption.
    now apply lstrip_fixed.
  - rewrite lstrip_app by congruence. now rewrite Hl.
Qed.

Lemma rstrip_idempotent (s : pystr) : rstrip (rstrip s) = rstrip s.
Proof.
  unfold rstrip. now rewrite rev_involutive, lstrip_idempotent.
Qed.

(** Trimming on the left and trimming on the right commute. *)
Lemma lstrip_rstrip (s : pystr) : lstrip (rstrip s) = rstrip (lstrip s).
Proof.
  destruct (lstrip_decompose s) as (w & Hw & Hs).
  destruct (lstrip s) as [|d t] eqn:Hl.
  - assert (Hr : rstrip s = []).
    { apply rstrip_nil_iff. rewrite Hs, app_nil_r. exact Hw. }
    now rewrite Hr.
  - pose proof (lstrip_head _ _ _ Hl) as Hd.
    rewrite Hs at 1. rewrite rstrip_app_fixed by assumption.
    rewrite lstrip_app_space by assumption.
    rewrite rstrip_cons_fixed by assumption. now apply lstrip_fixed.
Qed.

(** Trimming twice is trimming once. *)
Lemma strip_idempotent (s : pystr) : strip (strip s) = strip s.
Proof.
  unfold strip.
  now rewrite lstrip_rstrip, lstrip_idempotent, rstrip_idempotent.
Qed.

Lemma strip_lstrip (s : pystr) : strip (lstrip s) = strip s.
Proof. unfold strip. now rewrite lstrip_idempotent. Qed.

Lemma strip_rstrip (s : pystr) : strip (rstrip s) = strip s.
Proof.
  unfold strip. now rewrite lstrip_rstrip, rstrip_idempotent.
Qed.

(** Whitespace before and after a string is trimmed away. *)
Lemma strip_pad (w1 s w2 : pystr) :
  forallb isspace w1 = true -> forallb isspace w2 = true ->
  strip (w1 ++ s ++ w2) = strip s.
Proof.
  intros H1 H2. unfold strip. rewrite lstrip_app_space by assumption.
  rewrite <- !lstrip_rstrip. now rewrite rstrip_app_space by assumption.
Qed.

(** Trimming a string with a character that is no whitespace in it:
    the left of what is before, the right of what is after. *)
Lemma strip_around (a : pystr) (d : N) (b : pystr) :
  isspace d = false -> strip (a ++ d :: b) = lstrip a ++ d :: rstrip b.
Proof.
  intros Hd. unfold strip. rewrite lstrip_app_fixed by assumption.
  now apply rstrip_app_fixed.
Qed.

Lemma count_rstrip (c : N) (s : pystr) :
  isspace c = false -> count c (rstrip s) = count c s.
Proof.
  intros Hc. unfold rstrip.
  now rewrite count_rev, count_lstrip, count_rev.
Qed.

(** No piece of [s.split(c)] holds [c]. *)
Lemma split_pieces (c : N) (s p : pystr) :
  In p (split c s) -> count c p = 0.
Proof.
  revert p; induction s as [|d s IH]; simpl; intros p Hin.
  - destruct Hin as [<-|[]]. reflexivity.
  - destruct (N.eqb_spec d c) as [->|Hdc].
    + destruct Hin as [<-|Hin]; [reflexivity | now apply IH].
    + destruct (split c s) as [|q qs]; simpl in Hin.
      * destruct Hin as [<-|[]]. simpl.
        destruct (N.eqb_spec d c); [contradiction | reflexivity].
      * destruct Hin as [<-|Hin].
        -- simpl. destruct (N.eqb_spec d c); [contradiction|].
           apply IH. now left.
        -- apply IH. now right.
Qed.

Lemma pystr_eqb_refl (a : pystr) : pystr_eqb a a = true.
Proof. now apply pystr_eqb_eq. Qed.

Lemma pystr_eqb_sym (a b : pystr) : pystr_eqb a b = pystr_eqb b a.
Proof.
  destruct (pystr_eqb a b) eqn:H1, (pystr_eqb b a) eqn:H2; try reflexivity.
  - apply pystr_eqb_eq in H1. subst. now rewrite pystr_eqb_refl in H2.
  - apply pystr_eqb_eq in H2. subst. now rewrite pystr_eqb_refl in H1.
Qed.

Lemma pystr_eqb_trans (a b c : pystr) :
  pystr_eqb a b = true -> pystr_eqb b c = true -> pystr_eqb a c = true.
Proof.
  intros H1 H2. apply pystr_eqb_eq in H1, H2. subst. apply pystr_eqb_refl.
Qed.

(* ================================================================== *)
(** ** The responses of the handler, all of them *)

Section Responses.

Context {Obj : Type}.
Variable E : Engine Obj.

Lemma format_solutions_ok (v : Obj) (solutions : list Obj) :
  exists s, format_solutions E v solutions = ok_result s.
Proof. destruct solutions as [|a [|b l]]; simpl; eauto. Qed.

Lemma parse_input_no_return (equation : pystr) (r : response) :
  count EQUALS_SIGN equation <= 1 -> parse_input E equation <> Return r.
Proof.
  intros Hc. unfold parse_input.
  destruct (contains EQUALS_SIGN equation) eqn:Hin.
  - apply contains_count in Hin. rewrite split_length.
    replace (count EQUALS_SIGN equation) with 1 by lia. simpl.
    destruct (parse_expr E _); simpl; [|discriminate].
    destruct (parse_expr E _); simpl; [|discriminate].
    destruct (make_Eq E _ _); discriminate.
  - destruct (parse_expr E equation); discriminate.
Qed.

Lemma choose_variable_return (variable : pystr) (expr : Obj)
    (free_syms : list Obj) (r : response) :
  choose_variable E variable expr free_syms = Return r ->
  exists s, r = ok_result s.
Proof.
  destruct variable as [|c variable]; simpl.
  - destruct free_syms as [|a [|b l]].
    + destruct (isinstance_Eq E expr).
      * destruct (equals E (lhs E expr) (rhs E expr)); simpl;
          [|discriminate].
        intros H; inversion H; eauto.
      * intros H; inversion H; eauto.
    + discriminate.
    + destruct (existsb _ _).
      * destruct (symbols E (lit "x")); discriminate.
      * destruct (sorted _); [discriminate|].
        destruct (symbols E _); discriminate.
  - destruct (symbols E (c :: variable)); discriminate.
Qed.

(** How the [try] block ends: on the check of the format, on a result,
    or on an exception. *)
Lemma try_block_cases (equation variable : pystr) :
  (2 <= count EQUALS_SIGN equation
   /\ try_block E equation variable = Return (bad_request MSG_FORMAT))
  \/ (count EQUALS_SIGN equation <= 1
      /\ exists s, try_block E equation variable = Return (ok_result s))
  \/ (count EQUALS_SIGN equation <= 1
      /\ exists m, try_block E equation variable = Raise m).
Proof.
  destruct (le_lt_dec 2 (count EQUALS_SIGN equation)) as [Hc|Hc].
  - left. split; [assumption|]. unfold try_block.
    now rewrite parse_input_format.
  - right. assert (Hc' : count EQUALS_SIGN equation <= 1) by lia.
    unfold try_block.
    destruct (parse_input E equation) as [expr|r|m] eqn:Hp; simpl.
    + rewrite get_free_syms_eq.
      destruct (free_symbols E expr) as [fs|m]; simpl; [|right; eauto].
      destruct (choose_variable E variable expr fs) as [v|r|m] eqn:Hv;
        simpl.
      * destruct (solve E expr v) as [sols|m]; simpl; [|right; eauto].
        left. split; [assumption|].
        destruct (format_solutions_ok v sols) as (s & ->). eauto.
      * left. split; [assumption|].
        destruct (choose_variable_return _ _ _ _ Hv) as (s & ->). eauto.
      * right; eauto.
    + exfalso. exact (parse_input_no_return _ _ Hc' Hp).
    + right; eauto.
Qed.

Lemma equation_arg_count (req : request) :
  count EQUALS_SIGN (equation_arg req)
  = count EQUALS_SIGN (or_empty (arg_equation req)).
Proof. unfold equation_arg. now apply count_strip. Qed.

Lemma equation_arg_blank (req : request) :
  equation_arg req = []
  <-> forallb isspace (or_empty (arg_equation req)) = true.
Proof. apply strip_nil_iff. Qed.

(** The four kinds of response, each with when it is given. *)
Lemma solve_equation_cases (req : request) :
  (equation_arg req = [] /\ solve_equation E req = bad_request MSG_MISSING)
  \/ (equation_arg req <> []
      /\ 2 <= count EQUALS_SIGN (equation_arg req)
      /\ solve_equation E req = bad_request MSG_FORMAT)
  \/ (equation_arg req <> []
      /\ count EQUALS_SIGN (equation_arg req) <= 1
      /\ (forall m,
            ~ raised_in_try E (equation_arg req) (variable_arg req) m)
      /\ exists s, solve_equation E req = ok_result s)
  \/ (equation_arg req <> []
      /\ count EQUALS_SIGN (equation_arg req) <= 1
      /\ exists m,
           raised_in_try E (equation_arg req) (variable_arg req) m
           /\ solve_equation E req = bad_request (MSG_FAILED ++ m)).
Proof.
  destruct (equation_arg req) as [|c equation] eqn:He.
  - left. split; [reflexivity|]. unfold solve_equation. now rewrite He.
  - right.
    assert (Hne : equation_arg req <> []) by (rewrite He; discriminate).
    rewrite <- He. rewrite (solve_equation_try E req Hne).
    destruct (try_block_cases (equation_arg req) (variable_arg req))
      as [(Hc & Ht) | [(Hc & s & Ht) | (Hc & m & Ht)]]; rewrite Ht; simpl.
    + left. auto.
    + right; left. repeat split; auto; [|eauto].
      intros m Hr. apply raised_in_try_raise in Hr. congruence.
    + right; right. repeat split; auto. exists m. split; [|reflexivity].
      now apply try_block_raise.
Qed.

End Responses.

(** X1: every response of the handler is a status 200 with a [result],
    or a status 400 with an [error] that is one of the two messages of
    the validation or begins with [Failed to solve equation: ]. *)
Theorem response_shape {Obj : Type} (E : Engine Obj) (req : request) :
  (exists s, solve_equation E req = Response 200 (JResult s))
  \/ (exists s,
        solve_equation E req = Response 400 (JError s)
        /\ (s = lit "Missing 'equation' query parameter"
            \/ s = lit "Invalid equation format. Use single '=' sign."
            \/ exists m, s = lit "Failed to solve equation: " ++ m)).
Proof.
  destruct (solve_equation_cases E req)
    as [(_ & H) | [(_ & _ & H) | [(_ & _ & _ & s & H)
       | (_ & _ & m & _ & H)]]]; rewrite H.
  - right. eexists. split; [reflexivity | now left].
  - right. eexists. split; [reflexivity | now right; left].
  - left. now exists s.
  - right. eexists. split; [reflexivity | right; right; now exists m].
Qed.

(** X2: the response [Missing 'equation' query parameter] is given for
    a missing, empty or blank equation, and for no other request. *)
Theorem missing_iff_blank {Obj : Type} (E : Engine Obj) (req : request) :
  solve_equation E req
  = Response 400 (JError (lit "Missing 'equation' query parameter"))
  <-> forallb isspace (or_empty (arg_equation req)) = true.
Proof.
  rewrite <- equation_arg_blank.
  destruct (solve_equation_cases E req)
    as [(He & H) | [(He & _ & H) | [(He & _ & _ & s & H)
       | (He & _ & m & _ & H)]]]; rewrite H;
    (split; [intros Hx | intros Hx]); try assumption; try contradiction;
    try reflexivity; discriminate.
Qed.

(** X3: the response [Invalid equation format. Use single '=' sign.] is
    given for an equation with two [=] signs or more, and for no other
    request. *)
Theorem format_error_iff_several_signs {Obj : Type} (E : Engine Obj)
    (req : request) :
  solve_equation E req
  = Response 400
      (JError (lit "Invalid equation format. Use single '=' sign."))
  <-> 2 <= count EQUALS_SIGN (or_empty (arg_equation req)).
Proof.
  rewrite <- equation_arg_count.
  destruct (solve_equation_cases E req)
    as [(He & H) | [(He & Hc & H) | [(He & Hc & _ & s & H)
       | (He & Hc & m & _ & H)]]]; rewrite H;
    (split; [intros Hx | intros Hx]); try assumption; try reflexivity;
    try lia; try discriminate.
  rewrite He in Hx. simpl in Hx. lia.
Qed.


(* ================================================================== *)
(** ** Whitespace in the arguments *)

(** X5: whitespace before and after the equation and before and after
    the variable does not change the response. *)
Theorem surrounding_whitespace_ignored {Obj : Type} (E : Engine Obj)
    (equation variable w1 w2 w3 w4 : pystr) :
  forallb isspace w1 = true -> forallb isspace w2 = true ->
  forallb isspace w3 = true -> forallb isspace w4 = true ->
  solve_equation E (Request (Some (w1 ++ equation ++ w2))
                            (Some (w3 ++ variable ++ w4)))
  = solve_equation E (Request (Some equation) (Some variable)).
Proof.
  intros H1 H2 H3 H4. unfold solve_equation, equation_arg, variable_arg.
  simpl. now rewrite !strip_pad by assumption.
Qed.

Lemma surrounding_whitespace_ignored_witness :
  solve_equation Demo.engine (Demo.get_for "  x+y=5 " " y  ")
  = solve_equation Demo.engine (Demo.get_for "x+y=5" "y").
Proof.
  apply (surrounding_whitespace_ignored Demo.engine
           (lit "x+y=5") (lit "y") (lit "  ") (lit " ") (lit " ") (lit "  "));
    reflexivity.
Defined.

Section Sides.

Context {Obj : Type}.
Variable E : Engine Obj.

(** An equation [a=b]: the handler parses [a] and [b], trimmed. *)
Lemma parse_input_sides (a b : pystr) :
  count EQUALS_SIGN a = 0 -> count EQUALS_SIGN b = 0 ->
  strip (a ++ EQUALS_SIGN :: b) <> []
  /\ parse_input E (strip (a ++ EQUALS_SIGN :: b))
     = (l <- call (parse_expr E (strip a)) ;;
        r <- call (parse_expr E (strip b)) ;;
        call (make_Eq E l r)).
Proof.
  intros Ha Hb. rewrite strip_around by reflexivity. split.
  - destruct (lstrip a); discriminate.
  - rewrite (parse_input_equation E _ (lstrip a) (rstrip b)).
    + now rewrite strip_lstrip, strip_rstrip.
    + rewrite split_app_separator
        by (now rewrite count_lstrip by reflexivity).
      now rewrite split_no_separator
        by (now rewrite count_rstrip by reflexivity).
Qed.

(** The strings the handler hands to the parser: trimmed, without [=]. *)
Lemma parse_input_clean (p : pystr -> result Obj) (equation : pystr) :
  (forall s, strip s = s -> count EQUALS_SIGN s = 0 ->
             p s = parse_expr E s) ->
  strip equation = equation ->
  parse_input (with_parse_expr E p) equation = parse_input E equation.
Proof.
  intros Hp He. unfold parse_input.
  destruct (contains EQUALS_SIGN equation) eqn:Hc.
  - destruct (negb _); [reflexivity|]. simpl parse_expr.
    assert (Hpart : forall i,
              p (strip (nth i (split EQUALS_SIGN equation) []))
              = parse_expr E (strip (nth i (split EQUALS_SIGN equation) []))).
    { intros i. apply Hp; [apply strip_idempotent|].
      rewrite count_strip by reflexivity.
      destruct (nth_in_or_default i (split EQUALS_SIGN equation) [])
        as [Hin| ->]; [exact (split_pieces _ _ _ Hin) | reflexivity]. }
    now rewrite !Hpart.
  - simpl parse_expr. rewrite Hp; [reflexivity | assumption|].
    now apply contains_false_count.
Qed.

End Sides.

(** X6: whitespace around the two sides of an equation does not change
    the response: [a=b] is answered as the equation of the trimmed [a]
    and the trimmed [b]. *)
Theorem whitespace_around_sides_ignored {Obj : Type} (E : Engine Obj)
    (a b : pystr) (variable : option pystr) :
  count EQUALS_SIGN a = 0 -> count EQUALS_SIGN b = 0 ->
  solve_equation E (Request (Some (a ++ EQUALS_SIGN :: b)) variable)
  = solve_equation E
      (Request (Some (strip a ++ EQUALS_SIGN :: strip b)) variable).
Proof.
  intros Ha Hb.
  destruct (parse_input_sides E a b Ha Hb) as (Hne & Hp).
  destruct (parse_input_sides E (strip a) (strip b)) as (Hne' & Hp');
    try (now rewrite count_strip by reflexivity).
  rewrite !strip_idempotent in Hp'.
  rewrite !solve_equation_try by assumption.
  unfold try_block, equation_arg, variable_arg; simpl.
  now rewrite Hp, Hp'.
Qed.

Lemma whitespace_around_sides_ignored_witness :
  solve_equation Demo.engine (Demo.get " 2x+4  =  0 ")
  = solve_equation Demo.engine (Demo.get "2x+4=0").
Proof.
  apply (whitespace_around_sides_ignored Demo.engine
           (lit " 2x+4  ") (lit "  0 ") None); reflexivity.
Defined.

(** X7: the parser is only called on strings that are trimmed and hold
    no [=]: the response is the same with any parser that agrees with
    the engine's on those strings. *)
Theorem parser_sees_clean_strings {Obj : Type} (E : Engine Obj)
    (p : pystr -> result Obj) (req : request) :
  (forall s, strip s = s -> count EQUALS_SIGN s = 0 ->
             p s = parse_expr E s) ->
  solve_equation (with_parse_expr E p) req = solve_equation E req.
Proof.
  intros Hp. unfold solve_equation.
  destruct (equation_arg req) as [|c equation] eqn:He; [reflexivity|].
  f_equal. unfold try_block.
  rewrite (parse_input_clean E p _ Hp)
    by (rewrite <- He; apply strip_idempotent).
  reflexivity.
Qed.

Lemma parser_sees_clean_strings_witness :
  solve_equation
    (with_parse_expr Demo.engine
       (fun s => if pystr_eqb (strip s) s && (count EQUALS_SIGN s =? 0)
                 then Demo.parse s else Exn (lit "not reached")))
    (Demo.get " 2x+4 = 0 ")
  = solve_equation Demo.engine (Demo.get " 2x+4 = 0 ").
Proof.
  apply (parser_sees_clean_strings Demo.engine
           (fun s => if pystr_eqb (strip s) s && (count EQUALS_SIGN s =? 0)
                     then Demo.parse s else Exn (lit "not reached"))
           (Demo.get " 2x+4 = 0 ")).
  intros s Hs Hc. rewrite Hs, Hc, pystr_eqb_refl. reflexivity.
Defined.

(* ================================================================== *)
(** ** The headers of the application *)

Section HeaderFacts.

Variable same_name : pystr -> pystr -> bool.
Hypothesis same_name_refl : forall a, same_name a a = true.
Hypothesis same_name_sym : forall a b, same_name a b = same_name b a.
Hypothesis same_name_trans :
  forall a b c, same_name a b = true -> same_name b c = true ->
                same_name a c = true.

Lemma same_name_other (k name other : pystr) :
  same_name k name = true -> same_name name other = false ->
  same_name k other = false.
Proof.
  intros Hk Ho. destruct (same_name k other) eqn:H; [|reflexivity].
  rewrite <- Ho. symmetry. apply (same_name_trans name k other);
    [now rewrite same_name_sym | assumption].
Qed.

Lemma get_without_header (name other : pystr) (h : header_list) :
  same_name name other = false ->
  get_header same_name other (without_header same_name name h)
  = get_header same_name other h.
Proof.
  intros Ho. induction h as [|[k v] h IH]; simpl; [reflexivity|].
  destruct (same_name k name) eqn:Hk; simpl.
  - now rewrite (same_name_other _ _ _ Hk Ho).
  - now rewrite IH.
Qed.

Lemma count_without_header (name other : pystr) (h : header_list) :
  same_name name other = false ->
  count_header same_name other (without_header same_name name h)
  = count_header same_name other h.
Proof.
  intros Ho. unfold count_header.
  induction h as [|[k v] h IH]; simpl; [reflexivity|].
  destruct (same_name k name) eqn:Hk; simpl.
  - now rewrite (same_name_other _ _ _ Hk Ho).
  - destruct (same_name k other); simpl; now rewrite IH.
Qed.

Lemma count_without_same (name : pystr) (h : header_list) :
  count_header same_name name (without_header same_name name h) = 0.
Proof.
  unfold count_header. induction h as [|[k v] h IH]; simpl; [reflexivity|].
  destruct (same_name k name) eqn:Hk; simpl; [exact IH|].
  now rewrite Hk.
Qed.

(** Reading a header that has just been set. *)
Lemma get_set_header (name value : pystr) (h : header_list) :
  get_header same_name name (set_header same_name name value h)
  = Some value.
Proof.
  induction h as [|[k v] h IH]; simpl.
  - now rewrite same_name_refl.
  - destruct (same_name k name) eqn:Hk; simpl.
    + now rewrite same_name_refl.
    + now rewrite Hk.
Qed.

(** Setting a header leaves the headers of other names as they are. *)
Lemma get_set_other (name value other : pystr) (h : header_list) :
  same_name name other = false ->
  get_header same_name other (set_header same_name name value h)
  = get_header same_name other h.
Proof.
  intros Ho. induction h as [|[k v] h IH]; simpl.
  - now rewrite Ho.
  - destruct (same_name k name) eqn:Hk; simpl.
    + rewrite Ho, (same_name_other _ _ _ Hk Ho).
      now apply get_without_header.
    + now rewrite IH.
Qed.

Lemma count_set_header (name value : pystr) (h : header_list) :
  count_header same_name name (set_header same_name name value h) = 1.
Proof.
  induction h as [|[k v] h IH]; simpl.
  - unfold count_header; simpl. now rewrite same_name_refl.
  - destruct (same_name k name) eqn:Hk.
    + change (count_header same_name name
                ((name, value) :: without_header same_name name h))
        with (length (filter (fun kv => same_name (fst kv) name)
                        ((name, value) :: without_header same_name name h))).
      simpl. rewrite same_name_refl. simpl.
      now rewrite (count_without_same name h : length _ = 0).
    + unfold count_header in *; simpl. now rewrite Hk.
Qed.

Lemma count_set_other (name value other : pystr) (h : header_list) :
  same_name name other = false ->
  count_header same_name other (set_header same_name name value h)
  = count_header same_name other h.
Proof.
  intros Ho. induction h as [|[k v] h IH]; simpl.
  - unfold count_header; simpl. now rewrite Ho.
  - destruct (same_name k name) eqn:Hk.
    + unfold count_header; simpl.
      rewrite Ho, (same_name_other _ _ _ Hk Ho).
      exact (count_without_header name other h Ho).
    + unfold count_header in *; simpl.
      destruct (same_name k other); simpl; now rewrite IH.
Qed.

Hypothesis origin_methods : same_name ALLOW_ORIGIN ALLOW_METHODS = false.
Hypothesis origin_headers : same_name ALLOW_ORIGIN ALLOW_HEADERS = false.
Hypothesis methods_headers : same_name ALLOW_METHODS ALLOW_HEADERS = false.

Lemma add_cors_headers_get (response : flask_response) :
  let h := headers (add_cors_headers same_name response) in
  get_header same_name ALLOW_ORIGIN h = Some (lit "*")
  /\ get_header same_name ALLOW_METHODS h = Some (lit "GET, OPTIONS")
  /\ get_header same_name ALLOW_HEADERS h = Some (lit "Content-Type").
Proof.
  assert (Hmo : same_name ALLOW_METHODS ALLOW_ORIGIN = false)
    by (now rewrite same_name_sym).
  assert (Hho : same_name ALLOW_HEADERS ALLOW_ORIGIN = false)
    by (now rewrite same_name_sym).
  assert (Hhm : same_name ALLOW_HEADERS ALLOW_METHODS = false)
    by (now rewrite same_name_sym).
  simpl. repeat split.
  - now rewrite !get_set_other, get_set_header by assumption.
  - now rewrite get_set_other, get_set_header by assumption.
  - apply get_set_header.
Qed.

Lemma add_cors_headers_count (response : flask_response) :
  let h := headers (add_cors_headers same_name response) in
  count_header same_name ALLOW_ORIGIN h = 1
  /\ count_header same_name ALLOW_METHODS h = 1
  /\ count_header same_name ALLOW_HEADERS h = 1.
Proof.
  assert (Hmo : same_name ALLOW_METHODS ALLOW_ORIGIN = false)
    by (now rewrite same_name_sym).
  assert (Hho : same_name ALLOW_HEADERS ALLOW_ORIGIN = false)
    by (now rewrite same_name_sym).
  assert (Hhm : same_name ALLOW_HEADERS ALLOW_METHODS = false)
    by (now rewrite same_name_sym).
  simpl. repeat split.
  - now rewrite !count_set_other, count_set_header by assumption.
  - now rewrite count_set_other, count_set_header by assumption.
  - apply count_set_header.
Qed.

(** X8: whatever headers a response has when it reaches the hook, it
    leaves with the three CORS headers set to [*], [GET, OPTIONS] and
    [Content-Type], each of them once. *)
Theorem cors_headers_set (response : flask_response) :
  let h := headers (add_cors_headers same_name response) in
  get_header same_name ALLOW_ORIGIN h = Some (lit "*")
  /\ get_header same_name ALLOW_METHODS h = Some (lit "GET, OPTIONS")
  /\ get_header same_name ALLOW_HEADERS h = Some (lit "Content-Type")
  /\ count_header same_name ALLOW_ORIGIN h = 1
  /\ count_header same_name ALLOW_METHODS h = 1
  /\ count_header same_name ALLOW_HEADERS h = 1.
Proof.
  intros h.
  destruct (add_cors_headers_get response) as (G1 & G2 & G3).
  destruct (add_cors_headers_count response) as (C1 & C2 & C3).
  repeat split; assumption.
Qed.

(** X9: the hook changes neither the status nor the body, and a header
    of any other name keeps its value and its number of occurrences. *)
Theorem cors_hook_keeps_the_rest (response : flask_response)
    (name : pystr) :
  same_name ALLOW_ORIGIN name = false ->
  same_name ALLOW_METHODS name = false ->
  same_name ALLOW_HEADERS name = false ->
  let after := add_cors_headers same_name response in
  code after = code response
  /\ content after = content response
  /\ get_header same_name name (headers after)
     = get_header same_name name (headers response)
  /\ count_header same_name name (headers after)
     = count_header same_name name (headers response).
Proof.
  intros Ho Hm Hh. simpl. repeat split.
  - now rewrite !get_set_other by assumption.
  - now rewrite !count_set_other by assumption.
Qed.

Lemma without_header_again (name : pystr) (h : header_list) :
  without_header same_name name (without_header same_name name h)
  = without_header same_name name h.
Proof.
  unfold without_header. induction h as [|[k v] h IH]; simpl; [reflexivity|].
  destruct (same_name k name) eqn:Hk; simpl; [exact IH|].
  rewrite Hk. simpl. now rewrite IH.
Qed.

Lemma without_header_comm (name other : pystr) (h : header_list) :
  without_header same_name name (without_header same_name other h)
  = without_header same_name other (without_header same_name name h).
Proof.
  unfold without_header. induction h as [|[k v] h IH]; simpl; [reflexivity|].
  destruct (same_name k other) eqn:Ho, (same_name k name) eqn:Hn; simpl;
    rewrite ?Ho, ?Hn; simpl; now rewrite IH.
Qed.

Lemma without_set_other (name other value : pystr) (h : header_list) :
  same_name other name = false ->
  without_header same_name name (set_header same_name other value h)
  = set_header same_name other value (without_header same_name name h).
Proof.
  intros Ho. induction h as [|[k v] h IH]; simpl.
  - now rewrite Ho.
  - destruct (same_name k other) eqn:Hk.
    + rewrite (same_name_other _ _ _ Hk Ho). simpl. rewrite Hk, Ho. simpl.
      f_equal. apply without_header_comm.
    + destruct (same_name k name) eqn:Hn; simpl; rewrite Hn; simpl.
      * exact IH.
      * rewrite Hk. f_equal. exact IH.
Qed.

(** Setting a header to the value it was set to changes nothing. *)
Lemma set_header_again (name value : pystr) (h : header_list) :
  set_header same_name name value (set_header same_name name value h)
  = set_header same_name name value h.
Proof.
  induction h as [|[k v] h IH]; simpl.
  - now rewrite same_name_refl.
  - destruct (same_name k name) eqn:Hk; simpl.
    + rewrite same_name_refl. f_equal. apply without_header_again.
    + now rewrite Hk, IH.
Qed.

(** A header that is set stays set when a header of another name is. *)
Lemma set_header_stays (name value other value' : pystr) (h : header_list) :
  same_name other name = false ->
  set_header same_name name value h = h ->
  set_header same_name name value (set_header same_name other value' h)
  = set_header same_name other value' h.
Proof.
  intros Ho. induction h as [|[k v] h IH]; simpl; [discriminate|].
  destruct (same_name k name) eqn:Hn.
  - intros H. inversion H as [[Hk Hv Hw]]. subst k v.
    assert (Hno : same_name name other = false)
      by (now rewrite same_name_sym).
    rewrite Hno. simpl. rewrite same_name_refl. f_equal.
    rewrite Hw. rewrite without_set_other by assumption. now rewrite Hw.
  - intros H. inversion H as [Hs]. rewrite Hs.
    destruct (same_name k other) eqn:Hk; simpl.
    + rewrite Ho. f_equal.
      rewrite <- Hs at 2.
      rewrite <- (without_set_other other name value h)
        by (now rewrite same_name_sym).
      reflexivity.
    + rewrite Hn. f_equal. now apply IH.
Qed.

(** X11: running the hook on a response that went through it changes
    nothing. *)
Theorem cors_hook_idempotent (response : flask_response) :
  add_cors_headers same_name (add_cors_headers same_name response)
  = add_cors_headers same_name response.
Proof.
  assert (Hmo : same_name ALLOW_METHODS ALLOW_ORIGIN = false)
    by (now rewrite same_name_sym).
  assert (Hho : same_name ALLOW_HEADERS ALLOW_ORIGIN = false)
    by (now rewrite same_name_sym).
  assert (Hhm : same_name ALLOW_HEADERS ALLOW_METHODS = false)
    by (now rewrite same_name_sym).
  unfold add_cors_headers; simpl. f_equal.
  set (h1 := set_header same_name ALLOW_ORIGIN (lit "*") (headers response)).
  set (h2 := set_header same_name ALLOW_METHODS (lit "GET, OPTIONS") h1).
  set (h3 := set_header same_name ALLOW_HEADERS (lit "Content-Type") h2).
  assert (H1 : set_header same_name ALLOW_ORIGIN (lit "*") h3 = h3).
  { subst h3 h2. apply set_header_stays; [assumption|].
    apply set_header_stays; [assumption|]. apply set_header_again. }
  assert (H2 : set_header same_name ALLOW_METHODS (lit "GET, OPTIONS") h3
               = h3).
  { subst h3. apply set_header_stays; [assumption|]. apply set_header_again. }
  rewrite H1, H2. apply set_header_again.
Qed.

Context {Obj : Type}.
Variable E : Engine Obj.
Variable framework_headers : N -> document -> header_list.

(** X10: on both routes the application answers with what the view
    returned (for [/solve], the status and the body of
    [solve_equation]) and with the three CORS headers. *)
Theorem every_response_has_cors (r : route) :
  let response := create_app same_name E framework_headers r in
  (code response, content response) = view E r
  /\ get_header same_name ALLOW_ORIGIN (headers response) = Some (lit "*")
  /\ get_header same_name ALLOW_METHODS (headers response)
     = Some (lit "GET, OPTIONS")
  /\ get_header same_name ALLOW_HEADERS (headers response)
     = Some (lit "Content-Type").
Proof.
  unfold create_app. destruct (view E r) as [c d].
  pose proof (add_cors_headers_get
                (FlaskResponse c d (framework_headers c d)))
    as (H1 & H2 & H3).
  cbv zeta. repeat split; assumption.
Qed.

End HeaderFacts.

Lemma cors_headers_set_witness :
  get_header pystr_eqb ALLOW_ORIGIN
    (headers (add_cors_headers pystr_eqb
       (FlaskResponse 200 (Message [])
          [(ALLOW_ORIGIN, lit "https://example.org");
           (lit "Content-Type", lit "application/json");
           (ALLOW_ORIGIN, lit "null")])))
  = Some (lit "*").
Proof.
  apply (cors_headers_set pystr_eqb pystr_eqb_refl pystr_eqb_sym
           pystr_eqb_trans eq_refl eq_refl eq_refl).
Defined.

Lemma cors_hook_keeps_the_rest_witness :
  get_header pystr_eqb (lit "Content-Type")
    (headers (add_cors_headers pystr_eqb
       (FlaskResponse 200 (Message [])
          [(lit "Content-Type", lit "application/json")])))
  = Some (lit "application/json").
Proof.
  apply (cors_hook_keeps_the_rest pystr_eqb pystr_eqb_sym
           pystr_eqb_trans
           (FlaskResponse 200 (Message [])
              [(lit "Content-Type", lit "application/json")])
           (lit "Content-Type") eq_refl eq_refl eq_refl).
Defined.

Lemma cors_hook_idempotent_witness :
  add_cors_headers pystr_eqb
    (add_cors_headers pystr_eqb
       (FlaskResponse 200 (Message [])
          [(lit "access-control-allow-origin", lit "null");
           (lit "Content-Type", lit "application/json")]))
  = add_cors_headers pystr_eqb
      (FlaskResponse 200 (Message [])
         [(lit "access-control-allow-origin", lit "null");
          (lit "Content-Type", lit "application/json")]).
Proof.
  exact (cors_hook_idempotent pystr_eqb pystr_eqb_refl pystr_eqb_sym
           pystr_eqb_trans eq_refl eq_refl eq_refl
           (FlaskResponse 200 (Message [])
              [(lit "access-control-allow-origin", lit "null");
               (lit "Content-Type", lit "application/json")])).
Defined.

Lemma every_response_has_cors_witness :
  get_header pystr_eqb ALLOW_ORIGIN
    (headers (create_app pystr_eqb Demo.engine (fun _ _ => [])
                (GET_solve (Demo.get "2x+4=0"))))
  = Some (lit "*").
Proof.
  apply (every_response_has_cors pystr_eqb pystr_eqb_refl pystr_eqb_sym
           pystr_eqb_trans eq_refl eq_refl eq_refl Demo.engine (fun _ _ => [])
           (GET_solve (Demo.get "2x+4=0"))).
Defined.
